(** * Line Awesome icon catalogue builder: classification and formatting

    A shallow embedding of [build_icons.py] and the properties of its
    classification, naming and assembly logic.

    Modelling conventions.
    - A Python [str] is a [string]; every character is a 7-bit ASCII
      character, as in the icon list the script reads.  The case mapping and
      the white-space test below are the ASCII fragments of Python's.
    - A Python list is a [list]; [set] is a [gset string]; a [dict] that is
      only looked up is a [gmap string _]; the [categories] table, which the
      script iterates in insertion order, is an association list.
    - [list(set(xs))] is [elements] of the set: Python fixes no order for it,
      and nothing below depends on one.
    - A raised exception is the [Raise] result.  The input file is the list
      of its lines; reading and writing files are outside the model. *)

From Stdlib Require Import Ascii String.
From stdpp Require Import base decidable option list gmap sets strings sorting.

(** ** Python string primitives used by the script *)

Module PyStr.

(** [c.isspace()] on ASCII: TAB, LF, VT, FF, CR, FS, GS, RS, US, SPACE. *)
Definition isspace (c : ascii) : bool :=
  let n := nat_of_ascii c in
  ((9 <=? n) && (n <=? 13)) || ((28 <=? n) && (n <=? 32)).

Definition islower (c : ascii) : bool :=
  let n := nat_of_ascii c in (97 <=? n) && (n <=? 122).

Definition isupper (c : ascii) : bool :=
  let n := nat_of_ascii c in (65 <=? n) && (n <=? 90).

Definition iscased (c : ascii) : bool := islower c || isupper c.

Definition upper (c : ascii) : ascii :=
  if islower c then ascii_of_nat (nat_of_ascii c - 32) else c.

Definition lower (c : ascii) : ascii :=
  if isupper c then ascii_of_nat (nat_of_ascii c + 32) else c.

Fixpoint map_chars (f : ascii → ascii) (s : string) : string :=
  match s with
  | EmptyString => EmptyString
  | String c s' => String (f c) (map_chars f s')
  end.

(** [s.capitalize()]: first character upper-cased, all others lower-cased. *)
Definition capitalize (s : string) : string :=
  match s with
  | EmptyString => EmptyString
  | String c s' => String (upper c) (map_chars lower s')
  end.

(** [s.title()]: a cased character is upper-cased when the character before
    it is not cased, and lower-cased otherwise. *)
Fixpoint title_from (previous_is_cased : bool) (s : string) : string :=
  match s with
  | EmptyString => EmptyString
  | String c s' =>
      String (if previous_is_cased then lower c else upper c)
             (title_from (iscased c) s')
  end.

Definition title (s : string) : string := title_from false s.

(** [s.replace(old, new)] for one-character [old] and [new]. *)
Definition replace (old new : ascii) (s : string) : string :=
  map_chars (λ c, if Ascii.eqb c old then new else c) s.

Fixpoint lstrip (s : string) : string :=
  match s with
  | EmptyString => EmptyString
  | String c s' => if isspace c then lstrip s' else s
  end.

Fixpoint rstrip (s : string) : string :=
  match s with
  | EmptyString => EmptyString
  | String c s' =>
      match rstrip s' with
      | EmptyString => if isspace c then EmptyString else String c EmptyString
      | r => String c r
      end
  end.

(** [s.strip()] *)
Definition strip (s : string) : string := rstrip (lstrip s).

(** The fields of [s] between the characters that satisfy [is_sep]; there
    is always at least one field, and fields may be empty. *)
Fixpoint fields (is_sep : ascii → bool) (s : string) : list string :=
  match s with
  | EmptyString => [EmptyString]
  | String c s' =>
      if is_sep c then EmptyString :: fields is_sep s'
      else match fields is_sep s' with
           | w :: ws => String c w :: ws
           | [] => [String c EmptyString]
           end
  end.

(** [s.split(sep)] for a one-character separator. *)
Definition split (sep : ascii) (s : string) : list string :=
  fields (λ c, Ascii.eqb c sep) s.

(** [s.split()]: runs of white space separate, no empty word is kept. *)
Definition split_whitespace (s : string) : list string :=
  filter (λ w, w ≠ EmptyString) (fields isspace s).

(** [sep.join(ws)] *)
Fixpoint join (sep : string) (ws : list string) : string :=
  match ws with
  | [] => EmptyString
  | [w] => w
  | w :: ws' => w +:+ sep +:+ join sep ws'
  end.

(** [needle in hay] *)
Fixpoint contains (needle hay : string) : bool :=
  String.prefix needle hay ||
  match hay with
  | EmptyString => false
  | String _ hay' => contains needle hay'
  end.

(** [s.endswith(suffix)] *)
Fixpoint endswith (s suffix : string) : bool :=
  String.eqb s suffix ||
  match s with
  | EmptyString => false
  | String _ s' => endswith s' suffix
  end.

Fixpoint take (n : nat) (s : string) : string :=
  match n, s with
  | S n', String c s' => String c (take n' s')
  | _, _ => EmptyString
  end.

(** [s[:-n]] for [n > 0]: all but the last [n] characters. *)
Definition drop_last (n : nat) (s : string) : string :=
  take (String.length s - n) s.

(** Every character of [s] satisfies [p]. *)
Fixpoint all_chars (p : ascii → bool) (s : string) : bool :=
  match s with
  | EmptyString => true
  | String c s' => p c && all_chars p s'
  end.

(** [any(p(x) for x in xs)] *)
Definition any {A} (p : A → bool) (xs : list A) : bool := existsb p xs.

(** [x in xs] for a list of strings *)
Definition in_list (x : string) (xs : list string) : bool :=
  bool_decide (x ∈ xs).

End PyStr.

(** ** Exceptions *)

Inductive exn : Type :=
  | KeyError (key : string).

Inductive result (A : Type) : Type :=
  | Ok (a : A)
  | Raise (e : exn).
Arguments Ok {A} a.
Arguments Raise {A} e.

(** The exception monad, with stdpp's [x ← r; k] notation. *)
#[global] Instance result_ret : MRet result := λ A a, Ok a.

#[global] Instance result_bind : MBind result := λ A B k r,
  match r with
  | Ok a => k a
  | Raise e => Raise e
  end.

(** [d[key]] on a dict: a missing key raises [KeyError]. *)
Definition subscript {V} (d : gmap string V) (key : string) : result V :=
  match d !! key with
  | Some v => Ok v
  | None => Raise (KeyError key)
  end.

(** ** The static tables of [categorize_icon] *)

Definition brand_icons : list string :=
  ["500px"; "accusoft"; "adobe"; "affiliatetheme"; "airbnb"; "algolia";
   "alipay"; "amazon"; "amazon-pay"; "android"; "angellist";
   "angrycreative"; "angular"; "app-store"; "app-store-ios"; "apper";
   "apple-pay"; "artstation"; "asymmetrik"; "atlassian"; "audible";
   "autoprefixer"; "avianex"; "aviato"; "aws"; "bandcamp"; "battle-net";
   "behance"; "behance-square"; "bimobject"; "bitbucket";
   "bitbucket-square"; "bitcoin"; "bity"; "black-tie"; "blackberry";
   "blogger"; "blogger-b"; "bootstrap"; "btc"; "buffer"; "buromobelexperte";
   "buy-n-large"; "buysellads"; "centercode"; "centos"; "chrome";
   "chromecast"; "cloudscale"; "cloudsmith"; "cloudversify"; "codepen";
   "codiepie"; "confluence"; "connectdevelop"; "contao"; "cotton-bureau";
   "cpanel"; "creative-commons"; "critical-role"; "css3"; "css3-alt";
   "cuttlefish"; "d-and-d"; "d-and-d-beyond"; "dashcube"; "delicious";
   "deploydog"; "deskpro"; "dev"; "deviantart"; "digg"; "digital-ocean";
   "discord"; "discourse"; "dochub"; "docker"; "draft2digital"; "dribbble";
   "dribbble-square"; "dropbox"; "drupal"; "dyalog"; "earlybirds"; "ebay";
   "edge"; "elementor"; "ello"; "ember"; "empire"; "envira"; "erlang";
   "ethereum"; "etsy"; "evernote"; "expeditedssl"; "facebook"; "facebook-f";
   "facebook-messenger"; "facebook-square"; "fantasy-flight-games"; "fedex";
   "fedora"; "figma"; "firefox"; "first-order"; "first-order-alt";
   "firstdraft"; "flickr"; "flipboard"; "fly"; "font-awesome";
   "font-awesome-alt"; "font-awesome-flag"; "fonticons"; "fonticons-fi";
   "fort-awesome"; "fort-awesome-alt"; "forumbee"; "foursquare";
   "free-code-camp"; "freebsd"; "fulcrum"; "galactic-republic";
   "galactic-senate"; "get-pocket"; "gg"; "gg-circle"; "git"; "git-alt";
   "git-square"; "github"; "github-alt"; "github-square"; "gitkraken";
   "gitlab"; "gitter"; "glide"; "glide-g"; "gofore"; "goodreads";
   "goodreads-g"; "google"; "google-drive"; "google-play"; "google-plus";
   "google-plus-g"; "google-plus-square"; "google-wallet"; "gratipay";
   "grav"; "gripfire"; "grunt"; "gulp"; "hacker-news"; "hacker-news-square";
   "hackerrank"; "hips"; "hire-a-helper"; "hooli"; "hornbill"; "hotjar";
   "houzz"; "html5"; "hubspot"; "imdb"; "instagram"; "intercom";
   "internet-explorer"; "invision"; "ioxhost"; "itch-io"; "itunes"; "java";
   "jenkins"; "jira"; "joget"; "joomla"; "js"; "js-square"; "jsfiddle";
   "kaggle"; "keybase"; "keycdn"; "kickstarter"; "kickstarter-k"; "korvue";
   "laravel"; "lastfm"; "lastfm-square"; "leanpub"; "less"; "line";
   "linkedin"; "linkedin-in"; "linkedin-square"; "linode"; "linux"; "lyft";
   "magento"; "mailchimp"; "mandalorian"; "markdown"; "mastodon"; "maxcdn";
   "mdb"; "meanpath"; "medapps"; "medium"; "medium-m"; "medrt"; "meetup";
   "megaport"; "mendeley"; "microsoft"; "mix"; "mixcloud"; "mizuni"; "modx";
   "monero"; "napster"; "neos"; "nimblr"; "node"; "node-js"; "npm"; "ns8";
   "nutritionix"; "odnoklassniki"; "odnoklassniki-square"; "old-republic";
   "opencart"; "openid"; "opera"; "optin-monster"; "orcid"; "osi"; "page4";
   "pagelines"; "palfed"; "patreon"; "paypal"; "penny-arcade"; "periscope";
   "phabricator"; "phoenix-framework"; "phoenix-squadron"; "php";
   "pied-piper"; "pied-piper-alt"; "pied-piper-hat"; "pied-piper-pp";
   "pinterest"; "pinterest-p"; "pinterest-square"; "playstation";
   "product-hunt"; "pushed"; "python"; "qq"; "quinscape"; "quora";
   "r-project"; "raspberry-pi"; "ravelry"; "react"; "reacteurope"; "readme";
   "rebel"; "red-river"; "reddit"; "reddit-alien"; "reddit-square";
   "redhat"; "renren"; "replyd"; "researchgate"; "resistance"; "resolving";
   "rev"; "rocketchat"; "rockrms"; "s15"; "safari"; "salesforce"; "sass";
   "schlix"; "scribd"; "searchengin"; "sellcast"; "sellsy"; "servicestack";
   "shirtsinbulk"; "shopware"; "simplybuilt"; "sistrix"; "sith"; "sketch";
   "skyatlas"; "skype"; "slack"; "slack-hash"; "slideshare"; "snapchat";
   "snapchat-ghost"; "snapchat-square"; "soundcloud"; "sourcetree";
   "speakap"; "speaker-deck"; "spotify"; "squarespace"; "stack-exchange";
   "stack-overflow"; "stackpath"; "staylinked"; "steam"; "steam-square";
   "steam-symbol"; "sticker-mule"; "strava"; "stripe"; "stripe-s";
   "studiovinari"; "stumbleupon"; "stumbleupon-circle"; "superpowers";
   "supple"; "suse"; "swift"; "symfony"; "teamspeak"; "telegram";
   "telegram-plane"; "tencent-weibo"; "the-red-yeti"; "themeco";
   "themeisle"; "think-peaks"; "trade-federation"; "trello"; "tripadvisor";
   "tumblr"; "tumblr-square"; "twitch"; "twitter"; "twitter-square";
   "typo3"; "uber"; "ubuntu"; "uikit"; "umbraco"; "uniregistry"; "untappd";
   "ups"; "usps"; "ussunnah"; "vaadin"; "viacoin"; "viadeo";
   "viadeo-square"; "viber"; "vimeo"; "vimeo-square"; "vimeo-v"; "vine";
   "vk"; "vnv"; "vuejs"; "waze"; "wechat"; "weebly"; "weibo"; "weixin";
   "whatsapp"; "whatsapp-square"; "whmcs"; "wikipedia-w"; "windows"; "wix";
   "wizards-of-the-coast"; "wolf-pack-battalion"; "wordpress";
   "wordpress-simple"; "wpbeginner"; "wpexplorer"; "wpforms"; "wpressr";
   "xbox"; "xing"; "xing-square"; "y-combinator"; "y-combinator-square";
   "yahoo"; "yammer"; "yandex"; "yandex-international"; "yarn"; "yc";
   "yc-square"; "yelp"; "yoast"; "youtube"; "youtube-square"; "zhihu"].

Definition accessibility_icons : list string :=
  ["accessible-icon"; "american-sign-language-interpreting";
   "assistive-listening-systems"; "audio-description"; "blind"; "braille";
   "deaf"; "deafness"; "hard-of-hearing"; "low-vision"; "sign-language";
   "universal-access"; "wheelchair"; "wheelchair-alt"].

Definition arrows_icons : list string :=
  ["angle-double-down"; "angle-double-left"; "angle-double-right";
   "angle-double-up"; "angle-down"; "angle-left"; "angle-right"; "angle-up";
   "arrow-alt-circle-down"; "arrow-alt-circle-left";
   "arrow-alt-circle-right"; "arrow-alt-circle-up"; "arrow-circle-down";
   "arrow-circle-left"; "arrow-circle-right"; "arrow-circle-up";
   "arrow-down"; "arrow-left"; "arrow-right"; "arrow-up"; "arrows";
   "arrows-alt"; "arrows-alt-h"; "arrows-alt-v"; "arrows-h"; "arrows-v";
   "caret-down"; "caret-left"; "caret-right"; "caret-up";
   "chevron-circle-down"; "chevron-circle-left"; "chevron-circle-right";
   "chevron-circle-up"; "chevron-down"; "chevron-left"; "chevron-right";
   "chevron-up"; "compress"; "compress-arrows-alt"; "exchange";
   "exchange-alt"; "expand"; "expand-arrows-alt"; "external-link";
   "external-link-alt"; "external-link-square"; "external-link-square-alt";
   "level-down"; "level-down-alt"; "level-up"; "level-up-alt";
   "location-arrow"; "long-arrow-alt-down"; "long-arrow-alt-left";
   "long-arrow-alt-right"; "long-arrow-alt-up"; "long-arrow-down";
   "long-arrow-left"; "long-arrow-right"; "long-arrow-up"; "random"; "redo";
   "redo-alt"; "reply"; "reply-all"; "retweet"; "share"; "share-alt";
   "share-alt-square"; "share-square"; "step-backward"; "step-forward";
   "sync"; "sync-alt"; "undo"; "undo-alt"].

Definition medical_icons : list string :=
  ["allergies"; "ambulance"; "band-aid"; "briefcase-medical"; "capsules";
   "clinic-medical"; "comment-medical"; "diagnoses"; "dna"; "file-medical";
   "file-medical-alt"; "first-aid"; "heartbeat"; "hospital"; "hospital-alt";
   "hospital-symbol"; "laptop-medical"; "medkit"; "microscope";
   "notes-medical"; "pills"; "plus"; "prescription"; "prescription-bottle";
   "prescription-bottle-alt"; "procedures"; "stethoscope"; "syringe";
   "tablets"; "teeth"; "teeth-open"; "thermometer"; "tooth"; "user-md";
   "user-nurse"; "vial"; "vials"; "x-ray"].

Definition communication_icons : list string :=
  ["address-book"; "address-card"; "at"; "bell"; "bell-slash"; "bullhorn";
   "comment"; "comment-alt"; "comment-dots"; "comment-slash"; "commenting";
   "comments"; "envelope"; "envelope-open"; "envelope-open-text";
   "envelope-square"; "fax"; "inbox"; "language"; "mail-bulk"; "microphone";
   "microphone-alt"; "microphone-alt-slash"; "microphone-slash"; "mobile";
   "mobile-alt"; "phone"; "phone-alt"; "phone-slash"; "phone-square";
   "phone-square-alt"; "phone-volume"; "rss"; "rss-square"; "satellite";
   "satellite-dish"; "sms"; "voicemail"; "volume-down"; "volume-mute";
   "volume-off"; "volume-up"; "wifi"].

Definition files_icons : list string :=
  ["archive"; "book"; "book-dead"; "book-medical"; "book-open";
   "book-reader"; "bookmark"; "clipboard"; "clipboard-check";
   "clipboard-list"; "copy"; "file"; "file-alt"; "file-archive";
   "file-audio"; "file-code"; "file-contract"; "file-csv"; "file-download";
   "file-excel"; "file-export"; "file-image"; "file-import"; "file-invoice";
   "file-invoice-dollar"; "file-pdf"; "file-powerpoint";
   "file-prescription"; "file-signature"; "file-text"; "file-upload";
   "file-video"; "file-word"; "folder"; "folder-minus"; "folder-open";
   "folder-plus"; "paste"; "save"; "scroll"; "sticky-note"].

Definition interface_icons : list string :=
  ["adjust"; "bars"; "border-all"; "border-none"; "border-style"; "cog";
   "cogs"; "columns"; "compress"; "desktop"; "download"; "edit";
   "ellipsis-h"; "ellipsis-v"; "expand"; "eye"; "eye-slash"; "filter";
   "grip-horizontal"; "grip-lines"; "grip-lines-vertical"; "grip-vertical";
   "home"; "i-cursor"; "list"; "list-alt"; "list-ol"; "list-ul"; "lock";
   "lock-open"; "menu"; "minus"; "minus-circle"; "minus-square";
   "mouse-pointer"; "navicon"; "plus"; "plus-circle"; "plus-square";
   "power-off"; "search"; "search-minus"; "search-plus"; "server";
   "settings"; "sliders"; "sliders-h"; "sort"; "sort-down"; "sort-up";
   "table"; "tablet"; "tablet-alt"; "tasks"; "th"; "th-large"; "th-list";
   "times"; "times-circle"; "toggle-off"; "toggle-on"; "tools"; "trash";
   "trash-alt"; "trash-restore"; "trash-restore-alt"; "unlock";
   "unlock-alt"; "upload"; "window-close"; "window-maximize";
   "window-minimize"; "window-restore"].

Definition text_icons : list string :=
  ["align-center"; "align-justify"; "align-left"; "align-right"; "bold";
   "font"; "heading"; "highlighter"; "italic"; "paragraph"; "quote-left";
   "quote-right"; "strikethrough"; "subscript"; "superscript";
   "text-height"; "text-width"; "underline"].

Definition emotions_icons : list string :=
  ["angry"; "dizzy"; "flushed"; "frown"; "frown-open"; "grimace"; "grin";
   "grin-alt"; "grin-beam"; "grin-beam-sweat"; "grin-hearts"; "grin-squint";
   "grin-squint-tears"; "grin-stars"; "grin-tears"; "grin-tongue";
   "grin-tongue-squint"; "grin-tongue-wink"; "grin-wink"; "kiss";
   "kiss-beam"; "kiss-wink-heart"; "laugh"; "laugh-beam"; "laugh-squint";
   "laugh-wink"; "meh"; "meh-blank"; "meh-rolling-eyes"; "sad-cry";
   "sad-tear"; "smile"; "smile-beam"; "smile-wink"; "surprise"; "tired"].

Definition transportation_icons : list string :=
  ["bicycle"; "bus"; "bus-alt"; "car"; "car-alt"; "car-battery";
   "car-crash"; "car-side"; "motorcycle"; "plane"; "plane-arrival";
   "plane-departure"; "ship"; "shuttle-van"; "subway"; "taxi"; "train";
   "tram"; "truck"; "truck-loading"; "truck-monster"; "truck-moving";
   "truck-pickup"].

Definition food_icons : list string :=
  ["apple-alt"; "bacon"; "beer"; "birthday-cake"; "bread-slice";
   "candy-cane"; "carrot"; "cheese"; "cocktail"; "coffee"; "cookie";
   "cookie-bite"; "cutlery"; "drumstick-bite"; "egg"; "hamburger"; "hotdog";
   "ice-cream"; "lemon"; "pepper-hot"; "pizza-slice"; "utensil-spoon";
   "utensils"; "wine-bottle"; "wine-glass"; "wine-glass-alt"].

Definition science_icons : list string :=
  ["atom"; "battery"; "battery-empty"; "battery-full"; "battery-half";
   "battery-quarter"; "battery-three-quarters"; "beaker"; "biohazard";
   "brain"; "burn"; "calculator"; "cloud"; "dna"; "fire"; "flask"; "magnet";
   "microscope"; "radiation"; "radiation-alt"; "rainbow"; "seedling";
   "solar-panel"; "temperature-high"; "temperature-low"].

Definition categories : list (string * list string) :=
  [("brand", brand_icons);
   ("accessibility", accessibility_icons);
   ("arrows", arrows_icons);
   ("medical", medical_icons);
   ("communication", communication_icons);
   ("files", files_icons);
   ("interface", interface_icons);
   ("text", text_icons);
   ("emotions", emotions_icons);
   ("transportation", transportation_icons);
   ("food", food_icons);
   ("science", science_icons)].

(** The boilerplate keywords of [categorize_icon] *)

Definition category_keywords : gmap string (list string) :=
  list_to_map
    [("accessibility", ["accessibility"; "disabled"; "universal"; "access"]);
     ("arrows", ["arrow"; "direction"; "navigation"; "movement"]);
     ("medical", ["medical"; "health"; "healthcare"; "hospital"]);
     ("communication", ["communication"; "contact"; "message"; "talk"]);
     ("files", ["file"; "document"; "storage"; "data"]);
     ("interface", ["interface"; "ui"; "control"; "button"]);
     ("text", ["text"; "typography"; "format"; "writing"]);
     ("emotions", ["emotion"; "face"; "feeling"; "expression"]);
     ("transportation", ["transport"; "vehicle"; "travel"; "movement"]);
     ("food", ["food"; "dining"; "meal"; "kitchen"]);
     ("science", ["science"; "research"; "laboratory"; "technology"])].

(** The substitution table of [create_display_name] *)

Definition special_cases : gmap string string :=
  list_to_map
    [("alt", "Alternative");
     ("o", EmptyString);
     ("usa", "USA");
     ("usd", "USD");
     ("eur", "EUR");
     ("gbp", "GBP");
     ("jpy", "JPY");
     ("krw", "KRW");
     ("inr", "INR");
     ("cny", "CNY");
     ("btc", "BTC");
     ("eth", "ETH");
     ("id", "ID");
     ("api", "API");
     ("url", "URL");
     ("html", "HTML");
     ("css", "CSS");
     ("js", "JavaScript");
     ("php", "PHP");
     ("sql", "SQL");
     ("xml", "XML");
     ("json", "JSON");
     ("pdf", "PDF");
     ("csv", "CSV");
     ("rss", "RSS");
     ("wifi", "WiFi");
     ("usb", "USB");
     ("gps", "GPS");
     ("sms", "SMS");
     ("ui", "UI");
     ("ux", "UX");
     ("seo", "SEO");
     ("cms", "CMS");
     ("crm", "CRM");
     ("erp", "ERP");
     ("aws", "AWS");
     ("cdn", "CDN");
     ("dns", "DNS");
     ("vpn", "VPN");
     ("ssh", "SSH");
     ("ftp", "FTP");
     ("http", "HTTP");
     ("https", "HTTPS")].

(** The indicator lists of [determine_icon_type] *)

Definition brand_indicators : list string :=
  ["facebook"; "twitter"; "instagram"; "youtube"; "google"; "apple";
   "microsoft"; "amazon"; "github"; "linkedin"; "pinterest"; "reddit";
   "snapchat"; "spotify"; "netflix"; "paypal"; "visa"; "mastercard";
   "bitcoin"; "ethereum"; "android"; "windows"; "adobe"; "angular"; "react";
   "vue"; "node"; "npm"; "python"; "php"].

Definition regular_indicators : list string :=
  ["-o"; "outline"; "regular"].

(** The description table of [build_comprehensive_icon_list] *)

Definition category_descriptions : gmap string string :=
  list_to_map
    [("accessibility", "Accessibility & Universal Access");
     ("achievements", "Awards & Achievements");
     ("arrows", "Arrows & Directions");
     ("brand", "Brand & Social Media");
     ("buildings", "Buildings & Architecture");
     ("business", "Business & Commerce");
     ("communication", "Communication & Contact");
     ("emotions", "Emotions & Expressions");
     ("files", "Files & Documents");
     ("food", "Food & Dining");
     ("geography", "Geography & Maps");
     ("household", "Home & Household");
     ("interface", "Interface & Controls");
     ("maritime", "Maritime & Nautical");
     ("medical", "Medical & Health");
     ("misc", "Miscellaneous");
     ("science", "Science & Research");
     ("symbols", "Symbols & Signs");
     ("text", "Text & Typography");
     ("transportation", "Transportation & Vehicles")].

(** The prefix table of [get_css_class] *)

Definition prefix_map : gmap string string :=
  list_to_map
    [("solid", "las");
     ("regular", "lar");
     ("brand", "lab")].

(** ** [categorize_icon] *)

(** The [for cat_name, icons in categories.items()] loop with its [break]:
    the first table holding [icon_name] replaces [category]. *)
Fixpoint scan_categories (tables : list (string * list string))
    (icon_name category : string) : string :=
  match tables with
  | [] => category
  | (cat_name, icons) :: rest =>
      if PyStr.in_list icon_name icons then cat_name
      else scan_categories rest icon_name category
  end.

(** [any(brand in icon_name for brand in categories['brand'])] *)
Definition brand_substring (icon_name : string) : bool :=
  PyStr.any (λ brand, PyStr.contains brand icon_name) brand_icons.

Definition brand_seed_keywords : list string :=
  ["brand"; "social"; "platform"; "service"].

Definition categorize_icon (icon_name : string) : string * list string :=
  let category := "misc" in
  let keywords := [] in
  let '(category, keywords) :=
    if brand_substring icon_name
    then ("brand", brand_seed_keywords)
    else (category, keywords) in
  let category := scan_categories categories icon_name category in
  let icon_words := PyStr.split_whitespace (PyStr.replace "-" " " icon_name) in
  let keywords := keywords ++ icon_words in
  let keywords :=
    match category_keywords !! category with
    | Some boilerplate => keywords ++ boilerplate
    | None => keywords
    end in
  let keywords := elements (list_to_set keywords : gset string) in
  let keywords :=
    filter (λ k, k ≠ EmptyString ∧ 1 < String.length k) keywords in
  (category, keywords).

(** ** [determine_icon_type] *)

Definition determine_icon_type (icon_name : string) : string :=
  if PyStr.any (λ brand, PyStr.contains brand icon_name) brand_indicators
  then "brand"
  else if PyStr.any (λ indicator, PyStr.contains indicator icon_name)
            regular_indicators
  then "regular"
  else "solid".

(** ** [get_css_class] *)

Definition get_css_class (icon_name icon_type : string) : result string :=
  prefix ← subscript prefix_map icon_type;
  Ok (prefix +:+ " la-" +:+ icon_name).

(** ** [create_display_name] *)

(** One turn of the [for word in words] loop on [processed_words]. *)
Definition process_word (processed_words : list string) (word : string)
    : list string :=
  match special_cases !! word with
  | Some replacement =>
      if bool_decide (replacement = EmptyString) then processed_words
      else processed_words ++ [replacement]
  | None => processed_words ++ [PyStr.capitalize word]
  end.

Definition create_display_name (icon_name : string) : string :=
  let words := PyStr.split "-" icon_name in
  let processed_words := foldl process_word [] words in
  PyStr.join " " processed_words.

(** ** [build_comprehensive_icon_list] *)

Record IconRecord : Type := mkIcon {
  name : string;
  displayName : string;
  cssClass : string;
  iconType : string;
  category : string;
  keywords : list string
}.

Record Metadata : Type := mkMetadata {
  version : string;
  totalIcons : nat;
  description : string;
  source : string;
  license : string;
  lastUpdated : string;
  categories_list : list string;
  iconTypes : list string
}.

Record Document : Type := mkDocument {
  doc_metadata : Metadata;
  doc_icons : list IconRecord;
  doc_categories : gmap string string
}.

(** [[line.strip() for line in f if line.strip()]] *)
Definition read_icon_names (lines : list string) : list string :=
  omap (λ line, let stripped := PyStr.strip line in
                if bool_decide (stripped = EmptyString) then None
                else Some stripped) lines.

(** The two accumulators of the main loop. *)
Record Accum : Type := mkAccum {
  icons : list IconRecord;
  categories_used : gset string
}.

(** The body of [for icon_name in icon_names]. *)
Definition loop_body (acc : Accum) (icon_name : string) : result Accum :=
  if bool_decide (icon_name = EmptyString) then Ok acc
  else
    let '(category, keywords) := categorize_icon icon_name in
    let categories_used := categories_used acc ∪ {[category]} in
    let icon_type := determine_icon_type icon_name in
    if PyStr.endswith icon_name "-o" then
      let base_name := PyStr.drop_last 2 icon_name in
      let icons := icons acc ++
        [mkIcon base_name (create_display_name base_name)
                ("lar la-" +:+ base_name) "regular" category keywords] in
      let icons := icons ++
        [mkIcon base_name (create_display_name base_name)
                ("las la-" +:+ base_name) "solid" category keywords] in
      Ok (mkAccum icons categories_used)
    else
      let display_name := create_display_name icon_name in
      css_class ← get_css_class icon_name icon_type;
      Ok (mkAccum
            (icons acc ++
               [mkIcon icon_name display_name css_class icon_type
                       category keywords])
            categories_used).

Fixpoint run_loop (acc : Accum) (icon_names : list string) : result Accum :=
  match icon_names with
  | [] => Ok acc
  | icon_name :: rest =>
      acc' ← loop_body acc icon_name;
      run_loop acc' rest
  end.

(** [category_descriptions.get(cat, cat.title())] *)
Definition describe_category (cat : string) : string :=
  default (PyStr.title cat) (category_descriptions !! cat).

(** [sorted(categories_used)] *)
Definition sorted (s : gset string) : list string :=
  merge_sort String.le (elements s).

(** [{cat: ... for cat in sorted(categories_used)}] *)
Definition category_mapping (used : gset string) : gmap string string :=
  foldl (λ d cat, <[cat := describe_category cat]> d) ∅ (sorted used).

Definition build_comprehensive_icon_list (lines : list string)
    : result Document :=
  let icon_names := read_icon_names lines in
  acc ← run_loop (mkAccum [] ∅) icon_names;
  Ok (mkDocument
        (mkMetadata "1.3.0" (length (icons acc))
           "Line Awesome - Free icon font replacement for Font Awesome"
           "https://icons8.com/line-awesome" "MIT" "2025-09-16"
           (elements (categories_used acc))
           ["solid"; "regular"; "brand"])
        (icons acc)
        (category_mapping (categories_used acc))).

(** ** The display name as the specification words it

    Split on hyphens; a segment that is a key of the substitution table is
    replaced by the table's value, and dropped when that value is empty; any
    other segment is capitalised; the surviving words are joined by single
    spaces. *)

Definition dropped_word (word : string) : Prop :=
  special_cases !! word = Some EmptyString.

Definition format_word (word : string) : string :=
  default (PyStr.capitalize word) (special_cases !! word).

Definition display_name_spec (base_name : string) : string :=
  PyStr.join " "
    (format_word <$> filter (λ w, ¬ dropped_word w) (PyStr.split "-" base_name)).

(** The fields of the records of a document, keywords apart (their order is
    not fixed), or no record when the script raises. *)
Definition record_summaries (r : result Document)
    : list (string * string * string * string * string) :=
  match r with
  | Ok doc =>
      (λ i, (name i, displayName i, cssClass i, iconType i, category i))
        <$> doc_icons doc
  | Raise _ => []
  end.

(** The records one turn of the main loop appends for [icon_name]: those
    the loop body adds to empty accumulators. *)
Definition emitted_records (icon_name : string) : list IconRecord :=
  match loop_body (mkAccum [] ∅) icon_name with
  | Ok acc => icons acc
  | Raise _ => []
  end.

(** ** Proof tactics *)

(** Closed decidable goals, such as membership in a literal list. *)
Ltac by_compute := apply (bool_decide_unpack _); vm_compute; exact I.

(** Membership of a variable in a literal list, by cases. *)
Ltac by_cases_on_list :=
  rewrite ?elem_of_cons, ?elem_of_nil in *; intuition congruence.

(** Equality of sets built from unions, singletons and the empty set. *)
Ltac same_elements :=
  apply set_eq; intros ?;
  rewrite ?elem_of_union, ?elem_of_singleton, ?elem_of_empty; tauto.

(** ** Facts about the string primitives *)

Section string_facts.
Import PyStr.

Lemma app_cons a s t : String a s +:+ t = String a (s +:+ t).
Proof. reflexivity. Qed.

Lemma app_empty_l t : EmptyString +:+ t = t.
Proof. reflexivity. Qed.

Lemma app_empty_r s : s +:+ EmptyString = s.
Proof. induction s as [|a s IH]; [done|]. by rewrite app_cons, IH. Qed.

Lemma app_assoc_str s t u : (s +:+ t) +:+ u = s +:+ t +:+ u.
Proof. induction s as [|a s IH]; [done|]. by rewrite !app_cons, IH. Qed.

Lemma length_app_str s t :
  String.length (s +:+ t) = String.length s + String.length t.
Proof. induction s as [|a s IH]; [done|]. rewrite app_cons. simpl. by rewrite IH. Qed.

Lemma prefix_spec needle hay :
  String.prefix needle hay = true ↔ ∃ post, hay = needle +:+ post.
Proof.
  revert hay. induction needle as [|a n IH]; intros hay.
  - split; [intros _; by exists hay|]. by destruct hay.
  - destruct hay as [|b h]; simpl.
    + split; [done|]. by intros [post Hpost].
    + destruct (ascii_dec a b) as [->|Hne].
      * rewrite IH. split; intros [post Hpost]; exists post.
        -- by rewrite app_cons, <-Hpost.
        -- rewrite app_cons in Hpost. by simplify_eq.
      * split; [done|]. intros [post Hpost].
        rewrite app_cons in Hpost. by simplify_eq.
Qed.

(** [needle in hay] holds exactly when [hay] decomposes around [needle]. *)
Lemma contains_spec needle hay :
  contains needle hay = true ↔ ∃ pre post, hay = pre +:+ needle +:+ post.
Proof.
  induction hay as [|b h IH].
  - change (contains needle EmptyString)
      with (String.prefix needle EmptyString || false).
    rewrite orb_false_r, prefix_spec. split.
    + intros [post Hpost]. by exists EmptyString, post.
    + intros [pre [post Hpost]]. destruct pre; [by exists post|done].
  - change (contains needle (String b h))
      with (String.prefix needle (String b h) || contains needle h).
    rewrite orb_true_iff, prefix_spec, IH. split.
    + intros [[post Hpost]|[pre [post Hpost]]].
      * by exists EmptyString, post.
      * exists (String b pre), post. by rewrite app_cons, <-Hpost.
    + intros [[|a pre] [post Hpost]].
      * left. by exists post.
      * right. rewrite app_cons in Hpost. simplify_eq. by exists pre, post.
Qed.

Lemma endswith_spec s suffix :
  endswith s suffix = true ↔ ∃ pre, s = pre +:+ suffix.
Proof.
  induction s as [|b s IH].
  - change (endswith EmptyString suffix)
      with (String.eqb EmptyString suffix || false).
    rewrite orb_false_r, String.eqb_eq. split.
    + intros <-. by exists EmptyString.
    + intros [[|??] Hpre]; [done|]. by rewrite app_cons in Hpre.
  - change (endswith (String b s) suffix)
      with (String.eqb (String b s) suffix || endswith s suffix).
    rewrite orb_true_iff, String.eqb_eq, IH. split.
    + intros [<-|[pre ->]]; [by exists EmptyString|].
      by exists (String b pre).
    + intros [[|a pre] Hpre]; [by left|]. right.
      rewrite app_cons in Hpre. simplify_eq. by exists pre.
Qed.

Lemma take_app_length s t : take (String.length s) (s +:+ t) = s.
Proof. induction s as [|a s IH]; [by destruct t|]. simpl. by rewrite IH. Qed.

(** [(pre + suffix)[:-len(suffix)] == pre] *)
Lemma drop_last_app pre suffix :
  drop_last (String.length suffix) (pre +:+ suffix) = pre.
Proof.
  unfold drop_last. rewrite length_app_str.
  replace (String.length pre + String.length suffix - String.length suffix)
    with (String.length pre) by lia.
  apply take_app_length.
Qed.

Lemma endswith_nonempty s suffix :
  suffix ≠ EmptyString → endswith s suffix = true → s ≠ EmptyString.
Proof.
  intros Hne [pre ->]%endswith_spec. destruct pre, suffix; done.
Qed.

Lemma fields_nonempty is_sep s : fields is_sep s ≠ [].
Proof.
  induction s as [|c s IH]; simpl; [done|].
  destruct (is_sep c); [done|]. by destruct (fields is_sep s).
Qed.

(** A word without separator is one field. *)
Lemma fields_word is_sep w :
  all_chars (λ c, negb (is_sep c)) w = true → fields is_sep w = [w].
Proof.
  induction w as [|c w IH]; simpl; [done|].
  intros [Hc Hw]%andb_true_iff. apply negb_true_iff in Hc.
  by rewrite Hc, IH.
Qed.

(** The fields of [w + sep + rest] are [w] and the fields of [rest]. *)
Lemma fields_word_sep is_sep w sep rest :
  all_chars (λ c, negb (is_sep c)) w = true → is_sep sep = true →
  fields is_sep (w +:+ String sep rest) = w :: fields is_sep rest.
Proof.
  intros Hw Hsep. induction w as [|c w IH].
  - rewrite app_empty_l. simpl. by rewrite Hsep.
  - simpl in Hw. apply andb_true_iff in Hw as [Hc Hw].
    apply negb_true_iff in Hc. rewrite app_cons. simpl.
    by rewrite Hc, IH.
Qed.

(** [sep.join(ws).split(sep) == ws] for separator-free words. *)
Lemma split_join sep ws :
  ws ≠ [] →
  Forall (λ w, all_chars (λ c, negb (Ascii.eqb c sep)) w = true) ws →
  split sep (join (String sep EmptyString) ws) = ws.
Proof.
  intros Hne Hws. unfold split.
  induction Hws as [|w ws Hw Hws IH]; [done|].
  destruct ws as [|w' ws]; simpl.
  - by apply fields_word.
  - rewrite app_cons, app_empty_l.
    rewrite fields_word_sep; [|done|by rewrite Ascii.eqb_refl].
    f_equal. by apply IH.
Qed.

(** On a string without white space, replacing hyphens by spaces and
    splitting at white space gives the non-empty hyphen-separated
    segments. *)
Lemma fields_replace_hyphen s :
  all_chars (λ c, negb (isspace c)) s = true →
  fields isspace (replace "-" " " s) = fields (λ c, Ascii.eqb c "-") s.
Proof.
  unfold replace. induction s as [|c s IH]; simpl; [done|].
  intros [Hc Hs]%andb_true_iff. apply negb_true_iff in Hc.
  rewrite <-IH by done.
  destruct (Ascii.eqb c "-") eqn:Heq; [done|]. by rewrite Hc.
Qed.

Lemma split_whitespace_hyphens s :
  all_chars (λ c, negb (isspace c)) s = true →
  split_whitespace (replace "-" " " s)
  = filter (λ w, w ≠ EmptyString) (split "-" s).
Proof.
  intros Hs. unfold split_whitespace, split.
  by rewrite fields_replace_hyphen.
Qed.
End string_facts.

(** A property checked on every item of a literal dict holds of whatever a
    lookup returns. *)
Lemma list_to_map_lookup_Forall {V} (P : string * V → Prop)
    (items : list (string * V)) (key : string) (value : V) :
  Forall P items →
  (list_to_map items : gmap string V) !! key = Some value →
  P (key, value).
Proof.
  intros Hall Hin%elem_of_list_to_map_2.
  rewrite Forall_forall in Hall. by apply Hall.
Qed.

(** ** The stylesheet class *)

Section css_class.

Lemma prefix_map_lookup icon_type :
  prefix_map !! icon_type =
    if decide (icon_type = "solid") then Some "las"
    else if decide (icon_type = "regular") then Some "lar"
    else if decide (icon_type = "brand") then Some "lab"
    else None.
Proof.
  unfold prefix_map. repeat case_decide; subst; try reflexivity.
  apply not_elem_of_list_to_map_1. cbn. by_cases_on_list.
Qed.

Lemma get_css_class_known icon_name icon_type prefix :
  prefix_map !! icon_type = Some prefix →
  get_css_class icon_name icon_type = Ok (prefix +:+ " la-" +:+ icon_name).
Proof. intros H. unfold get_css_class, subscript. by rewrite H. Qed.

Lemma get_css_class_unknown icon_name icon_type :
  prefix_map !! icon_type = None →
  get_css_class icon_name icon_type = Raise (KeyError icon_type).
Proof. intros H. unfold get_css_class, subscript. by rewrite H. Qed.

End css_class.

(** C1, as the code has it: for each of the three icon types the class
    string is the table's prefix, a space, the fixed token start [la-] and
    the base name.  Only the first token carries the variant prefix. *)
Theorem css_class_prefix_then_la_token (base_name icon_type : string) :
  icon_type ∈ ["solid"; "regular"; "brand"] →
  ∃ prefix,
    prefix_map !! icon_type = Some prefix ∧
    prefix ∈ ["las"; "lar"; "lab"] ∧
    get_css_class base_name icon_type
      = Ok (prefix +:+ " " +:+ "la-" +:+ base_name).
Proof.
  intros Hty. pose proof (prefix_map_lookup icon_type) as Hlook.
  repeat case_decide; subst.
  - exists "las". split_and!; [done|by_compute|by apply get_css_class_known].
  - exists "lar". split_and!; [done|by_compute|by apply get_css_class_known].
  - exists "lab". split_and!; [done|by_compute|by apply get_css_class_known].
  - by_cases_on_list.
Qed.

Lemma css_class_prefix_then_la_token_witness :
  "regular" ∈ ["solid"; "regular"; "brand"] ∧
  ∃ prefix,
    prefix_map !! "regular" = Some prefix ∧
    prefix ∈ ["las"; "lar"; "lab"] ∧
    get_css_class "home" "regular" = Ok (prefix +:+ " " +:+ "la-" +:+ "home").
Proof.
  assert ("regular" ∈ ["solid"; "regular"; "brand"]) as H by by_compute.
  split; [exact H|]. exact (css_class_prefix_then_la_token "home" "regular" H).
Defined.

(** C1, as stated, fails: the second token of the class of ["home"] of
    type ["solid"] starts with [la-], not with the prefix [las]. *)
Lemma css_class_same_prefix_in_both_tokens_fails :
  ¬ (∃ prefix,
       prefix_map !! "solid" = Some prefix ∧
       get_css_class "home" "solid"
         = Ok (prefix +:+ " " +:+ prefix +:+ "-" +:+ "home")).
Proof.
  intros [prefix [Hprefix Hclass]].
  rewrite prefix_map_lookup in Hprefix. simpl in Hprefix.
  injection Hprefix as <-. vm_compute in Hclass. discriminate Hclass.
Qed.

(** C7: the class lookup returns a string exactly for the three known icon
    types, and raises [KeyError] on the offending key for any other. *)
Theorem css_class_succeeds_exactly_on_known_types
    (base_name icon_type : string) :
  ((∃ css, get_css_class base_name icon_type = Ok css)
     ↔ icon_type ∈ ["solid"; "regular"; "brand"]) ∧
  (get_css_class base_name icon_type = Raise (KeyError icon_type)
     ↔ icon_type ∉ ["solid"; "regular"; "brand"]).
Proof.
  pose proof (prefix_map_lookup icon_type) as Hlook.
  repeat case_decide; subst.
  1-3: rewrite (get_css_class_known _ _ _ Hlook); split;
       [split; [intros _; by_compute|intros _; by eexists]
       |split; [discriminate|intros Hout; exfalso; apply Hout; by_compute]].
  rewrite (get_css_class_unknown _ _ Hlook). split.
  - split; [by intros [css ?]|by_cases_on_list].
  - split; [by_cases_on_list|done].
Qed.

(** ** The display name *)

Section display_name.
Import PyStr.

Lemma process_word_spec processed_words word :
  process_word processed_words word =
    processed_words ++
      (format_word <$> filter (λ w, ¬ dropped_word w) [word]).
Proof.
  unfold process_word, dropped_word.
  rewrite filter_cons, filter_nil.
  destruct (special_cases !! word) as [replacement|] eqn:Hword.
  - case_bool_decide as Hempty; subst.
    + rewrite decide_False by (by intros []). by rewrite app_nil_r.
    + rewrite decide_True by congruence.
      change (format_word <$> [word]) with [format_word word].
      unfold format_word. by rewrite Hword.
  - rewrite decide_True by done.
    change (format_word <$> [word]) with [format_word word].
    unfold format_word. by rewrite Hword.
Qed.

Lemma foldl_process_word processed_words words :
  foldl process_word processed_words words =
    processed_words ++
      (format_word <$> filter (λ w, ¬ dropped_word w) words).
Proof.
  revert processed_words.
  induction words as [|word words IH]; intros processed_words.
  - simpl. by rewrite app_nil_r.
  - simpl foldl. rewrite IH, process_word_spec, <-(assoc_L (++)).
    f_equal. change (word :: words) with ([word] ++ words).
    by rewrite filter_app, fmap_app.
Qed.

Lemma create_display_name_spec base_name :
  create_display_name base_name = display_name_spec base_name.
Proof.
  unfold create_display_name, display_name_spec.
  by rewrite foldl_process_word.
Qed.

(** The only key with an empty substitution is ["o"]. *)
Lemma dropped_word_o word : dropped_word word ↔ word = "o".
Proof.
  split; [|by intros ->].
  unfold dropped_word, special_cases. intros Hword.
  refine (list_to_map_lookup_Forall
            (λ item, item.2 = EmptyString → item.1 = "o")
            _ word EmptyString _ Hword eq_refl).
  by_compute.
Qed.

Lemma display_name_spec_drop words1 words2 word :
  dropped_word word →
  format_word <$> filter (λ w, ¬ dropped_word w) (words1 ++ word :: words2)
  = format_word <$> filter (λ w, ¬ dropped_word w) (words1 ++ words2).
Proof.
  intros Hdrop. rewrite !filter_app, filter_cons.
  by rewrite decide_False by (by intros []).
Qed.

End display_name.

(** C9: a segment whose substitution is the empty string (only ["o"]) adds
    no word and no space, wherever it stands: the display name is the
    surviving words joined by single spaces, and it is the display name of
    the identifier without that segment. *)
Theorem display_name_drops_empty_substitution :
  (∀ word, special_cases !! word = Some EmptyString ↔ word = "o") ∧
  (∀ base_name,
     create_display_name base_name
     = PyStr.join " "
         (format_word <$>
            filter (λ w, special_cases !! w ≠ Some EmptyString)
                   (PyStr.split "-" base_name))) ∧
  (∀ words1 words2 word,
     special_cases !! word = Some EmptyString →
     Forall (λ w, PyStr.all_chars (λ c, negb (Ascii.eqb c "-")) w = true)
            (words1 ++ words2) →
     create_display_name (PyStr.join "-" (words1 ++ word :: words2))
     = create_display_name (PyStr.join "-" (words1 ++ words2))) ∧
  create_display_name "arrow-circle-o-down" = "Arrow Circle Down".
Proof.
  split_and!.
  - apply dropped_word_o.
  - apply create_display_name_spec.
  - intros words1 words2 word Hdrop Hwords.
    assert (word = "o") as -> by (by apply dropped_word_o).
    rewrite !create_display_name_spec. unfold display_name_spec.
    rewrite split_join.
    + destruct (decide (words1 ++ words2 = [])) as [Hnil|Hnonnil].
      * apply app_eq_nil in Hnil as [-> ->]. by vm_compute.
      * rewrite split_join by done.
        by rewrite display_name_spec_drop.
    + by destruct words1.
    + apply Forall_app in Hwords as [H1 H2].
      apply Forall_app; split; [done|]. by constructor.
  - by vm_compute.
Qed.

Lemma display_name_drops_empty_substitution_witness :
  create_display_name
    (PyStr.join "-" (["arrow"; "circle"] ++ "o" :: ["down"]))
  = create_display_name (PyStr.join "-" (["arrow"; "circle"] ++ ["down"])).
Proof.
  refine (proj1 (proj2 (proj2 display_name_drops_empty_substitution))
            ["arrow"; "circle"] ["down"] "o" _ _).
  - reflexivity.
  - repeat constructor.
Defined.

(** C4, as the code has it: the display name of an expanded value is that
    value capitalised (first character upper-cased, the others lower-cased);
    no second substitution takes place.  It is the value itself only for
    ["alt"], whose expansion is ["Alternative"]. *)
Theorem display_name_of_expansion (key value : string) :
  special_cases !! key = Some value →
  value ≠ EmptyString →
  special_cases !! value = None ∧
  create_display_name value = PyStr.capitalize value ∧
  (create_display_name value = value ↔ key = "alt").
Proof.
  unfold special_cases at 1. intros Hkey Hvalue.
  refine (list_to_map_lookup_Forall
            (λ item, item.2 ≠ EmptyString →
                     special_cases !! item.2 = None ∧
                     create_display_name item.2 = PyStr.capitalize item.2 ∧
                     (create_display_name item.2 = item.2 ↔ item.1 = "alt"))
            _ key value _ Hkey Hvalue).
  by_compute.
Qed.

Lemma display_name_of_expansion_witness :
  special_cases !! "js" = Some "JavaScript" ∧
  create_display_name "JavaScript" = PyStr.capitalize "JavaScript" ∧
  ¬ create_display_name "JavaScript" = "JavaScript".
Proof.
  assert (special_cases !! "js" = Some "JavaScript") as Hjs by reflexivity.
  assert ("JavaScript" ≠ EmptyString) as Hne by discriminate.
  pose proof (display_name_of_expansion "js" "JavaScript" Hjs Hne)
    as [_ [Hcap Hiff]].
  split_and!; [exact Hjs|exact Hcap|].
  intros Hsame. apply Hiff in Hsame. discriminate Hsame.
Defined.

(** C4, as stated, fails: the expansion ["USA"] of the key ["usa"] is
    formatted to ["Usa"]. *)
Lemma display_name_not_idempotent_on_expansions :
  special_cases !! "usa" = Some "USA" ∧
  "USA" ≠ EmptyString ∧
  create_display_name "USA" = "Usa" ∧
  create_display_name "USA" ≠ "USA".
Proof. split_and!; by vm_compute. Qed.

(** ** The classifier *)

Section classifier.
Import PyStr.

(** The brand pre-seed fires exactly when some entry of the brand table
    occurs inside the identifier. *)
Lemma brand_substring_spec icon_name :
  brand_substring icon_name = true ↔
  ∃ brand pre post,
    brand ∈ brand_icons ∧ icon_name = pre +:+ brand +:+ post.
Proof.
  unfold brand_substring, any. rewrite existsb_exists. split.
  - intros [brand [Hin [pre [post ->]]%contains_spec]].
    exists brand, pre, post. by rewrite list_elem_of_In.
  - intros [brand [pre [post [Hin ->]]]]. exists brand.
    rewrite <-list_elem_of_In. split; [done|].
    apply contains_spec. by exists pre, post.
Qed.

Lemma scan_categories_first before cat_name icons after icon_name category :
  icon_name ∈ icons →
  Forall (λ table, icon_name ∉ table.2) before →
  scan_categories (before ++ (cat_name, icons) :: after) icon_name category
  = cat_name.
Proof.
  intros Hin. induction 1 as [|[c t] before Hout _ IH]; simpl.
  - unfold in_list. by rewrite bool_decide_eq_true_2.
  - unfold in_list at 1. by rewrite bool_decide_eq_false_2.
Qed.

Lemma scan_categories_none tables icon_name category :
  Forall (λ table, icon_name ∉ table.2) tables →
  scan_categories tables icon_name category = category.
Proof.
  induction 1 as [|[c t] tables Hout _ IH]; simpl; [done|].
  unfold in_list at 1. by rewrite bool_decide_eq_false_2.
Qed.

(** When some table holds the identifier, the scan stops at the first. *)
Lemma scan_categories_found (tables : list (string * list string))
    (icon_name : string) :
  Exists (λ table, icon_name ∈ table.2) tables →
  ∃ before cat_name icons after,
    tables = before ++ (cat_name, icons) :: after ∧
    icon_name ∈ icons ∧
    Forall (λ table, icon_name ∉ table.2) before.
Proof.
  induction tables as [|[c t] tables IH]; intros Hex.
  - by apply Exists_nil in Hex.
  - destruct (decide (icon_name ∈ t)) as [Hin|Hout].
    + by exists [], c, t, tables.
    + apply Exists_cons in Hex as [Hin|Hex]; [done|].
      destruct (IH Hex) as (before & c' & t' & after & -> & Hin & Hbefore).
      exists ((c, t) :: before), c', t', after.
      split_and!; [done|done|by constructor].
Qed.

Lemma categorize_icon_category icon_name :
  (categorize_icon icon_name).1 =
    scan_categories categories icon_name
      (if brand_substring icon_name then "brand" else "misc").
Proof. unfold categorize_icon. by destruct (brand_substring icon_name). Qed.

Lemma categorize_icon_keywords icon_name :
  (categorize_icon icon_name).2 =
    filter (λ k, k ≠ EmptyString ∧ 1 < String.length k)
      (elements (list_to_set
         (((if brand_substring icon_name then brand_seed_keywords else [])
             ++ split_whitespace (replace "-" " " icon_name))
            ++ default [] (category_keywords !! (categorize_icon icon_name).1))
         : gset string)).
Proof.
  rewrite categorize_icon_category. unfold categorize_icon.
  destruct (brand_substring icon_name);
    destruct (category_keywords !! _); cbn [default from_option id snd];
    by rewrite ?app_nil_r.
Qed.

Lemma categories_brand_table icons :
  ("brand", icons) ∈ categories → icons = brand_icons.
Proof.
  unfold categories. rewrite !elem_of_cons, elem_of_nil.
  intuition congruence.
Qed.

(** Every boilerplate keyword has at least two characters and none is a
    brand seed keyword. *)
Lemma boilerplate_keywords cat boilerplate :
  category_keywords !! cat = Some boilerplate →
  Forall (λ k, 1 < String.length k ∧ k ∉ brand_seed_keywords) boilerplate.
Proof.
  unfold category_keywords. intros Hcat.
  refine (list_to_map_lookup_Forall
            (λ item, Forall (λ k, 1 < String.length k ∧
                                  k ∉ brand_seed_keywords) item.2)
            _ cat boilerplate _ Hcat).
  by_compute.
Qed.

End classifier.

(** C3: the category is the name of the first table, in the fixed order
    brand, accessibility, arrows, medical, communication, files, interface,
    text, emotions, transportation, food, science, that holds the identifier
    as an element, whatever the brand pre-seed said; without such a table it
    is ["brand"] when a brand entry occurs in the identifier and ["misc"]
    otherwise.  An identifier with a brand entry inside that is in a
    non-brand table and not in the brand table gets that table's category. *)
Theorem category_resolution (icon_name : string) :
  categories.*1 =
    ["brand"; "accessibility"; "arrows"; "medical"; "communication"; "files";
     "interface"; "text"; "emotions"; "transportation"; "food"; "science"] ∧
  (∀ before cat_name icons after,
     categories = before ++ (cat_name, icons) :: after →
     icon_name ∈ icons →
     Forall (λ table, icon_name ∉ table.2) before →
     (categorize_icon icon_name).1 = cat_name) ∧
  (Forall (λ table, icon_name ∉ table.2) categories →
   (categorize_icon icon_name).1 =
     if brand_substring icon_name then "brand" else "misc") ∧
  (brand_substring icon_name = true →
   icon_name ∉ brand_icons →
   Exists (λ table, icon_name ∈ table.2) categories →
   (categorize_icon icon_name).1 ≠ "brand" ∧
   ∃ before icons after,
     categories = before ++ ((categorize_icon icon_name).1, icons) :: after ∧
     icon_name ∈ icons ∧
     Forall (λ table, icon_name ∉ table.2) before).
Proof.
  split_and!.
  - reflexivity.
  - intros before cat_name icons after Hcat Hin Hbefore.
    rewrite categorize_icon_category, Hcat.
    by apply scan_categories_first.
  - intros Hnone. rewrite categorize_icon_category.
    by apply scan_categories_none.
  - intros _ Hbrand Hex.
    destruct (scan_categories_found _ _ Hex)
      as (before & cat_name & icons & after & Hcat & Hin & Hbefore).
    assert ((categorize_icon icon_name).1 = cat_name) as ->.
    { rewrite categorize_icon_category, Hcat.
      by apply scan_categories_first. }
    split; [|by exists before, icons, after].
    intros ->. apply Hbrand.
    rewrite <-(categories_brand_table icons); [done|].
    rewrite Hcat. apply elem_of_app. right. by left.
Qed.

Lemma category_resolution_witness :
  brand_substring "underline" = true ∧
  ("underline" ∉ brand_icons) ∧
  (categorize_icon "underline").1 ≠ "brand" ∧
  (categorize_icon "underline").1 = "text".
Proof.
  assert (brand_substring "underline" = true) as Hsub by (by vm_compute).
  assert ("underline" ∉ brand_icons) as Hout by by_compute.
  assert (Exists (λ table, "underline" ∈ table.2) categories) as Hex
    by by_compute.
  pose proof (proj2 (proj2 (proj2 (category_resolution "underline")))
                Hsub Hout Hex) as [Hne _].
  split_and!; [exact Hsub|exact Hout|exact Hne|by vm_compute].
Defined.

(** C6, as the code has it: on an identifier without white space the
    keywords are exactly the strings of two or more characters among the
    brand seed keywords (when a brand entry occurs in the identifier), the
    hyphen-separated segments, and the boilerplate keywords of the final
    category; the list has no duplicates.  Without a brand entry in the
    identifier a seed keyword is present only as one of its segments. *)
Theorem keywords_characterised (icon_name : string) :
  PyStr.all_chars (λ c, negb (PyStr.isspace c)) icon_name = true →
  NoDup (categorize_icon icon_name).2 ∧
  (EmptyString ∉ (categorize_icon icon_name).2) ∧
  (∀ k, k ∈ (categorize_icon icon_name).2 → 1 < String.length k) ∧
  (∀ segment, segment ∈ PyStr.split "-" icon_name →
              1 < String.length segment →
              segment ∈ (categorize_icon icon_name).2) ∧
  (brand_substring icon_name = true →
   ∀ seed, seed ∈ brand_seed_keywords →
           seed ∈ (categorize_icon icon_name).2) ∧
  (brand_substring icon_name = false →
   ∀ seed, seed ∈ brand_seed_keywords →
           seed ∈ (categorize_icon icon_name).2 →
           seed ∈ PyStr.split "-" icon_name) ∧
  (∀ boilerplate,
     category_keywords !! (categorize_icon icon_name).1 = Some boilerplate →
     ∀ k, k ∈ boilerplate → k ∈ (categorize_icon icon_name).2) ∧
  (∀ k, k ∈ (categorize_icon icon_name).2 ↔
        1 < String.length k ∧
        ((brand_substring icon_name = true ∧ k ∈ brand_seed_keywords) ∨
         k ∈ PyStr.split "-" icon_name ∨
         ∃ boilerplate,
           category_keywords !! (categorize_icon icon_name).1
             = Some boilerplate ∧
           k ∈ boilerplate)).
Proof.
  intros Hws.
  assert (∀ k, k ∈ (categorize_icon icon_name).2 ↔
               1 < String.length k ∧
               ((brand_substring icon_name = true ∧ k ∈ brand_seed_keywords) ∨
                k ∈ PyStr.split "-" icon_name ∨
                ∃ boilerplate,
                  category_keywords !! (categorize_icon icon_name).1
                    = Some boilerplate ∧
                  k ∈ boilerplate)) as Hchar.
  { intros k.
    rewrite categorize_icon_keywords, split_whitespace_hyphens by done.
    rewrite list_elem_of_filter, elem_of_elements, elem_of_list_to_set.
    rewrite !elem_of_app, list_elem_of_filter.
    destruct (brand_substring icon_name);
      destruct (category_keywords !! _) as [boilerplate|]; simpl;
      rewrite ?elem_of_nil; split.
    all: try (intros [[Hne Hlen] Hk]; split; [done|];
              destruct Hk as [[Hk|[_ Hk]]|Hk]; eauto; done).
    all: intros [Hlen Hk];
      assert (k ≠ EmptyString) as Hne by (intros ->; simpl in Hlen; lia);
      (split; [done|]);
      destruct Hk as [[Hb Hk]|[Hk|[bl [Hbl Hk]]]]; simplify_eq; eauto. }
  assert (∀ k, k ∈ brand_seed_keywords → 1 < String.length k) as Hseed.
  { intros k. unfold brand_seed_keywords.
    rewrite !elem_of_cons, elem_of_nil.
    intros [->|[->|[->|[->|[]]]]]; simpl; lia. }
  split_and!.
  - rewrite categorize_icon_keywords.
    apply NoDup_filter, NoDup_elements.
  - intros [Hlen _]%Hchar. simpl in Hlen. lia.
  - by intros k [Hlen _]%Hchar.
  - intros segment Hin Hlen. apply Hchar. eauto.
  - intros Hbrand seed Hin. apply Hchar. split; [by apply Hseed|]. eauto.
  - intros Hbrand seed Hin [_ Hk]%Hchar.
    destruct Hk as [[Hb _]|[Hk|[bl [Hbl Hk]]]]; [congruence|done|].
    apply boilerplate_keywords in Hbl.
    rewrite Forall_forall in Hbl. by destruct (Hbl seed Hk).
  - intros boilerplate Hbl k Hin. apply Hchar.
    pose proof (boilerplate_keywords _ _ Hbl) as Hall.
    rewrite Forall_forall in Hall. destruct (Hall k Hin). eauto 6.
  - exact Hchar.
Qed.

Lemma keywords_characterised_witness :
  PyStr.all_chars (λ c, negb (PyStr.isspace c)) "wifi" = true ∧
  NoDup (categorize_icon "wifi").2 ∧
  "wifi" ∈ (categorize_icon "wifi").2.
Proof.
  assert (PyStr.all_chars (λ c, negb (PyStr.isspace c)) "wifi" = true)
    as Hws by reflexivity.
  pose proof (keywords_characterised "wifi" Hws)
    as (Hnodup & _ & _ & Hsegments & _).
  split_and!; [exact Hws|exact Hnodup|].
  apply Hsegments; [by_compute|simpl; lia].
Defined.

(** C6, as stated, fails: ["brand-social-platform-service"] has no brand
    entry inside, yet its keywords hold the four brand seed keywords. *)
Lemma brand_seed_keywords_without_brand_substring :
  brand_substring "brand-social-platform-service" = false ∧
  Forall (λ seed,
            seed ∈ (categorize_icon "brand-social-platform-service").2)
         brand_seed_keywords.
Proof. split; [by vm_compute|by_compute]. Qed.

(** ** The main loop and the assembled document *)

Section assembly.
Import PyStr.

Lemma bind_ok {A B} (a : A) (k : A → result B) : (Ok a ≫= k) = k a.
Proof. reflexivity. Qed.

Lemma determine_icon_type_spec icon_name :
  ((∃ brand, brand ∈ brand_indicators ∧ contains brand icon_name = true) →
   determine_icon_type icon_name = "brand") ∧
  ((∀ brand, brand ∈ brand_indicators → contains brand icon_name = false) →
   (∃ indicator, indicator ∈ regular_indicators ∧
                 contains indicator icon_name = true) →
   determine_icon_type icon_name = "regular") ∧
  ((∀ brand, brand ∈ brand_indicators → contains brand icon_name = false) →
   (∀ indicator, indicator ∈ regular_indicators →
                 contains indicator icon_name = false) →
   determine_icon_type icon_name = "solid").
Proof.
  unfold determine_icon_type, any.
  assert (∀ l : list string,
            existsb (λ x, contains x icon_name) l = true ↔
            ∃ x, x ∈ l ∧ contains x icon_name = true) as Hex.
  { intros l. rewrite existsb_exists.
    by setoid_rewrite list_elem_of_In. }
  assert (∀ l : list string,
            (∀ x, x ∈ l → contains x icon_name = false) →
            existsb (λ x, contains x icon_name) l = false) as Hnone.
  { intros l Hl. apply not_true_is_false. intros [x [Hx Hc]]%Hex.
    rewrite (Hl x Hx) in Hc. discriminate Hc. }
  split_and!.
  - intros Hbrand%Hex. by rewrite Hbrand.
  - intros Hbrand%Hnone Hregular%Hex. by rewrite Hbrand, Hregular.
  - intros Hbrand%Hnone Hregular%Hnone. by rewrite Hbrand, Hregular.
Qed.

(** The class lookup never fails on a type the script itself determined. *)
Lemma get_css_class_determined icon_name :
  ∃ css, get_css_class icon_name (determine_icon_type icon_name) = Ok css.
Proof.
  unfold determine_icon_type.
  destruct (any _ brand_indicators); [|destruct (any _ regular_indicators)];
    eexists; by apply get_css_class_known.
Qed.

Lemma loop_body_outline acc icon_name :
  endswith icon_name "-o" = true →
  loop_body acc icon_name =
    Ok (mkAccum
          (icons acc ++
             [mkIcon (drop_last 2 icon_name)
                     (create_display_name (drop_last 2 icon_name))
                     ("lar la-" +:+ drop_last 2 icon_name) "regular"
                     (categorize_icon icon_name).1
                     (categorize_icon icon_name).2;
              mkIcon (drop_last 2 icon_name)
                     (create_display_name (drop_last 2 icon_name))
                     ("las la-" +:+ drop_last 2 icon_name) "solid"
                     (categorize_icon icon_name).1
                     (categorize_icon icon_name).2])
          (categories_used acc ∪ {[ (categorize_icon icon_name).1 ]})).
Proof.
  intros Hends. unfold loop_body.
  rewrite bool_decide_eq_false_2
    by (by apply (endswith_nonempty _ "-o")).
  destruct (categorize_icon icon_name) as [cat kws].
  rewrite Hends. by rewrite <-(assoc_L (++)).
Qed.

Lemma loop_body_single acc icon_name :
  icon_name ≠ EmptyString →
  endswith icon_name "-o" = false →
  ∃ css,
    get_css_class icon_name (determine_icon_type icon_name) = Ok css ∧
    loop_body acc icon_name =
      Ok (mkAccum
            (icons acc ++
               [mkIcon icon_name (create_display_name icon_name) css
                       (determine_icon_type icon_name)
                       (categorize_icon icon_name).1
                       (categorize_icon icon_name).2])
            (categories_used acc ∪ {[ (categorize_icon icon_name).1 ]})).
Proof.
  intros Hne Hends.
  destruct (get_css_class_determined icon_name) as [css Hcss].
  exists css. split; [done|]. unfold loop_body.
  rewrite bool_decide_eq_false_2 by done.
  destruct (categorize_icon icon_name) as [cat kws].
  by rewrite Hends, Hcss.
Qed.

(** One turn of the loop appends records that depend on the identifier
    only, and adds exactly their categories to [categories_used]. *)
Lemma loop_body_emits icon_name :
  ∃ records,
    ∀ acc, loop_body acc icon_name =
             Ok (mkAccum (icons acc ++ records)
                   (categories_used acc ∪
                      list_to_set (category <$> records))).
Proof.
  destruct (decide (icon_name = EmptyString)) as [->|Hne].
  { exists []. intros [recs used]. unfold loop_body.
    rewrite bool_decide_eq_true_2 by done.
    cbn [icons categories_used fmap list_fmap list_to_set foldr].
    by rewrite app_nil_r, (right_id_L ∅ (∪)). }
  destruct (endswith icon_name "-o") eqn:Hends.
  - eexists. intros acc. rewrite loop_body_outline by done.
    do 2 f_equal.
    cbn [fmap list_fmap category list_to_set foldr].
    same_elements.
  - destruct (loop_body_single (mkAccum [] ∅) icon_name Hne Hends)
      as [css [Hcss _]].
    eexists. intros acc.
    destruct (loop_body_single acc icon_name Hne Hends)
      as [css' [Hcss' ->]].
    rewrite Hcss in Hcss'. injection Hcss' as <-.
    do 2 f_equal.
    cbn [fmap list_fmap category list_to_set foldr].
    same_elements.
Qed.

Lemma run_loop_emits icon_names :
  ∃ records,
    ∀ acc, run_loop acc icon_names =
             Ok (mkAccum (icons acc ++ records)
                   (categories_used acc ∪
                      list_to_set (category <$> records))).
Proof.
  induction icon_names as [|icon_name rest [records_rest IH]].
  - exists []. intros [recs used].
    cbn [run_loop icons categories_used fmap list_fmap list_to_set foldr].
    by rewrite app_nil_r, (right_id_L ∅ (∪)).
  - destruct (loop_body_emits icon_name) as [records Hbody].
    exists (records ++ records_rest). intros acc.
    cbn [run_loop]. rewrite Hbody, bind_ok, IH.
    cbn [icons categories_used].
    rewrite fmap_app, list_to_set_app_L, !(assoc_L (++)), !(assoc_L (∪)).
    done.
Qed.

Lemma run_loop_app acc icon_names1 icon_names2 :
  run_loop acc (icon_names1 ++ icon_names2) =
    (acc' ← run_loop acc icon_names1; run_loop acc' icon_names2).
Proof.
  revert acc. induction icon_names1 as [|n rest IH]; intros acc; [done|].
  cbn [run_loop app]. destruct (loop_body acc n) as [acc'|e]; [|done].
  rewrite !bind_ok. apply IH.
Qed.

Lemma read_icon_names_app lines1 lines2 :
  read_icon_names (lines1 ++ lines2) =
    read_icon_names lines1 ++ read_icon_names lines2.
Proof. apply omap_app. Qed.

Lemma read_icon_names_line line :
  strip line ≠ EmptyString → read_icon_names [line] = [strip line].
Proof.
  intros Hne. unfold read_icon_names. cbn [omap list_omap].
  by rewrite bool_decide_eq_false_2.
Qed.

(** The document is assembled from the final accumulators. *)
Lemma build_from_loop lines acc :
  run_loop (mkAccum [] ∅) (read_icon_names lines) = Ok acc →
  ∃ doc,
    build_comprehensive_icon_list lines = Ok doc ∧
    doc_icons doc = icons acc ∧
    doc_categories doc = category_mapping (categories_used acc) ∧
    totalIcons (doc_metadata doc) = length (icons acc).
Proof.
  intros Hrun. unfold build_comprehensive_icon_list.
  rewrite Hrun, bind_ok. by eexists.
Qed.

(** The script always produces a document, and its records are those of
    the lines before, those of the line, and those of the lines after. *)
Lemma build_icons_at before line after :
  ∃ doc_before doc_line doc_after doc,
    build_comprehensive_icon_list before = Ok doc_before ∧
    build_comprehensive_icon_list [line] = Ok doc_line ∧
    build_comprehensive_icon_list after = Ok doc_after ∧
    build_comprehensive_icon_list (before ++ line :: after) = Ok doc ∧
    doc_icons doc =
      doc_icons doc_before ++ doc_icons doc_line ++ doc_icons doc_after.
Proof.
  destruct (run_loop_emits (read_icon_names before)) as [rs1 H1].
  destruct (run_loop_emits (read_icon_names [line])) as [rs2 H2].
  destruct (run_loop_emits (read_icon_names after)) as [rs3 H3].
  destruct (build_from_loop _ _ (H1 (mkAccum [] ∅)))
    as (d1 & Hd1 & Hi1 & _).
  destruct (build_from_loop _ _ (H2 (mkAccum [] ∅)))
    as (d2 & Hd2 & Hi2 & _).
  destruct (build_from_loop _ _ (H3 (mkAccum [] ∅)))
    as (d3 & Hd3 & Hi3 & _).
  assert (∃ acc, run_loop (mkAccum [] ∅)
                   (read_icon_names (before ++ line :: after)) = Ok acc ∧
                 icons acc = rs1 ++ rs2 ++ rs3) as (acc & Hrun & Hacc).
  { change (line :: after) with ([line] ++ after).
    rewrite !read_icon_names_app.
    rewrite run_loop_app, H1, bind_ok, run_loop_app, H2, bind_ok, H3.
    eexists. split; [done|]. cbn [icons]. by rewrite <-!(assoc_L (++)). }
  destruct (build_from_loop _ _ Hrun) as (d & Hd & Hi & _).
  exists d1, d2, d3, d. split_and!; [done..|].
  by rewrite Hi, Hi1, Hi2, Hi3, Hacc.
Qed.

Lemma build_line_outline line :
  endswith (strip line) "-o" = true →
  ∃ doc,
    build_comprehensive_icon_list [line] = Ok doc ∧
    doc_icons doc =
      [mkIcon (drop_last 2 (strip line))
              (create_display_name (drop_last 2 (strip line)))
              ("lar la-" +:+ drop_last 2 (strip line)) "regular"
              (categorize_icon (strip line)).1
              (categorize_icon (strip line)).2;
       mkIcon (drop_last 2 (strip line))
              (create_display_name (drop_last 2 (strip line)))
              ("las la-" +:+ drop_last 2 (strip line)) "solid"
              (categorize_icon (strip line)).1
              (categorize_icon (strip line)).2].
Proof.
  intros Hends.
  assert (strip line ≠ EmptyString) as Hne
    by (by apply (endswith_nonempty _ "-o")).
  edestruct (build_from_loop [line]) as (doc & Hdoc & Hicons & _).
  { rewrite read_icon_names_line by done. cbn [run_loop].
    rewrite loop_body_outline by done. by rewrite bind_ok. }
  exists doc. by split.
Qed.

Lemma build_line_single line :
  strip line ≠ EmptyString →
  endswith (strip line) "-o" = false →
  ∃ doc css,
    build_comprehensive_icon_list [line] = Ok doc ∧
    get_css_class (strip line) (determine_icon_type (strip line)) = Ok css ∧
    doc_icons doc =
      [mkIcon (strip line) (create_display_name (strip line)) css
              (determine_icon_type (strip line))
              (categorize_icon (strip line)).1
              (categorize_icon (strip line)).2].
Proof.
  intros Hne Hends.
  destruct (loop_body_single (mkAccum [] ∅) _ Hne Hends)
    as (css & Hcss & Hbody).
  edestruct (build_from_loop [line]) as (doc & Hdoc & Hicons & _).
  { rewrite read_icon_names_line by done. cbn [run_loop].
    by rewrite Hbody, bind_ok. }
  exists doc, css. by split_and!.
Qed.

Lemma dom_foldl_insert (describe : string → string) (cats : list string)
    (d : gmap string string) :
  dom (foldl (λ d cat, <[cat := describe cat]> d) d cats)
  = dom d ∪ list_to_set cats.
Proof.
  revert d. induction cats as [|cat cats IH]; intros d.
  - cbn [foldl list_to_set foldr]. by rewrite (right_id_L ∅ (∪)).
  - cbn [foldl]. rewrite IH, dom_insert_L, list_to_set_cons. same_elements.
Qed.

(** The keys of the category mapping are the categories used. *)
Lemma dom_category_mapping (used : gset string) :
  dom (category_mapping used) = used.
Proof.
  unfold category_mapping, sorted.
  rewrite dom_foldl_insert, dom_empty_L, (left_id_L ∅ (∪)).
  rewrite (list_to_set_perm_L _ _ (merge_sort_Permutation _ _)).
  apply list_to_set_elements_L.
Qed.

End assembly.

(** C2: a line whose identifier ends in ["-o"] contributes exactly two
    adjacent records, the regular one first and the solid one second; both
    carry the identifier without its last two characters as name, the same
    display name, category and keywords, and their classes differ in the
    first token only ([lar] against [las]). *)
Theorem outline_identifier_yields_regular_then_solid
    (before after : list string) (line icon_name : string) :
  PyStr.strip line = icon_name →
  PyStr.endswith icon_name "-o" = true →
  ∃ doc doc_before doc_after regular solid base_name,
    build_comprehensive_icon_list (before ++ line :: after) = Ok doc ∧
    build_comprehensive_icon_list before = Ok doc_before ∧
    build_comprehensive_icon_list after = Ok doc_after ∧
    doc_icons doc =
      doc_icons doc_before ++ [regular; solid] ++ doc_icons doc_after ∧
    icon_name = base_name +:+ "-o" ∧
    iconType regular = "regular" ∧ iconType solid = "solid" ∧
    name regular = base_name ∧ name solid = base_name ∧
    displayName regular = create_display_name base_name ∧
    displayName solid = displayName regular ∧
    category solid = category regular ∧
    keywords solid = keywords regular ∧
    cssClass regular = "lar la-" +:+ base_name ∧
    cssClass solid = "las la-" +:+ base_name.
Proof.
  intros <- Hends.
  destruct (build_icons_at before line after)
    as (doc_before & doc_line & doc_after & doc & Hb & Hl & Ha & Hd & Hicons).
  destruct (build_line_outline line Hends) as (doc_line' & Hl' & Hrecords).
  rewrite Hl in Hl'. injection Hl' as <-. rewrite Hrecords in Hicons.
  pose proof Hends as [base_name Hbase]%endswith_spec.
  assert (PyStr.drop_last 2 (PyStr.strip line) = base_name) as Hdrop.
  { rewrite Hbase. apply (drop_last_app base_name "-o"). }
  rewrite Hdrop in Hicons.
  eexists doc, doc_before, doc_after, _, _, base_name.
  split_and!; [exact Hd|exact Hb|exact Ha|exact Hicons|exact Hbase|done..].
Qed.

Lemma outline_identifier_yields_regular_then_solid_witness :
  PyStr.strip " arrow-o " = "arrow-o" ∧
  PyStr.endswith "arrow-o" "-o" = true ∧
  ∃ doc doc_before doc_after regular solid base_name,
    build_comprehensive_icon_list (["home"] ++ " arrow-o " :: ["js"]) = Ok doc ∧
    build_comprehensive_icon_list ["home"] = Ok doc_before ∧
    build_comprehensive_icon_list ["js"] = Ok doc_after ∧
    doc_icons doc =
      doc_icons doc_before ++ [regular; solid] ++ doc_icons doc_after ∧
    "arrow-o" = base_name +:+ "-o" ∧
    iconType regular = "regular" ∧ iconType solid = "solid" ∧
    name regular = base_name ∧ name solid = base_name ∧
    displayName regular = create_display_name base_name ∧
    displayName solid = displayName regular ∧
    category solid = category regular ∧
    keywords solid = keywords regular ∧
    cssClass regular = "lar la-" +:+ base_name ∧
    cssClass solid = "las la-" +:+ base_name.
Proof.
  split; [reflexivity|]. split; [reflexivity|].
  exact (outline_identifier_yields_regular_then_solid
           ["home"] ["js"] " arrow-o " "arrow-o" eq_refl eq_refl).
Defined.

(** C5: a line whose non-empty identifier does not end in ["-o"]
    contributes exactly one record, named by the identifier unchanged; its
    type is brand when a brand indicator occurs in the identifier, else
    regular when ["-o"], ["outline"] or ["regular"] occurs in it, else
    solid. *)
Theorem plain_identifier_yields_one_record
    (before after : list string) (line icon_name : string) :
  PyStr.strip line = icon_name →
  icon_name ≠ EmptyString →
  PyStr.endswith icon_name "-o" = false →
  ∃ doc doc_before doc_after record,
    build_comprehensive_icon_list (before ++ line :: after) = Ok doc ∧
    build_comprehensive_icon_list before = Ok doc_before ∧
    build_comprehensive_icon_list after = Ok doc_after ∧
    doc_icons doc = doc_icons doc_before ++ [record] ++ doc_icons doc_after ∧
    name record = icon_name ∧
    regular_indicators = ["-o"; "outline"; "regular"] ∧
    ((∃ brand, brand ∈ brand_indicators ∧
               PyStr.contains brand icon_name = true) →
     iconType record = "brand") ∧
    ((∀ brand, brand ∈ brand_indicators →
               PyStr.contains brand icon_name = false) →
     (∃ indicator, indicator ∈ regular_indicators ∧
                   PyStr.contains indicator icon_name = true) →
     iconType record = "regular") ∧
    ((∀ brand, brand ∈ brand_indicators →
               PyStr.contains brand icon_name = false) →
     (∀ indicator, indicator ∈ regular_indicators →
                   PyStr.contains indicator icon_name = false) →
     iconType record = "solid").
Proof.
  intros <- Hne Hends.
  destruct (build_icons_at before line after)
    as (doc_before & doc_line & doc_after & doc & Hb & Hl & Ha & Hd & Hicons).
  destruct (build_line_single line Hne Hends)
    as (doc_line' & css & Hl' & _ & Hrecords).
  rewrite Hl in Hl'. injection Hl' as <-. rewrite Hrecords in Hicons.
  eexists doc, doc_before, doc_after, _.
  split_and!; [exact Hd|exact Hb|exact Ha|exact Hicons|done|done|..];
    apply determine_icon_type_spec.
Qed.

Lemma plain_identifier_yields_one_record_witness :
  PyStr.strip "arrow-circle-o-down" = "arrow-circle-o-down" ∧
  "arrow-circle-o-down" ≠ EmptyString ∧
  PyStr.endswith "arrow-circle-o-down" "-o" = false ∧
  ∃ doc record,
    build_comprehensive_icon_list ["arrow-circle-o-down"] = Ok doc ∧
    doc_icons doc = [record] ∧
    name record = "arrow-circle-o-down" ∧
    iconType record = "regular".
Proof.
  assert ("arrow-circle-o-down" ≠ EmptyString) as Hne by discriminate.
  split; [reflexivity|]. split; [exact Hne|]. split; [reflexivity|].
  destruct (plain_identifier_yields_one_record
              [] [] "arrow-circle-o-down" "arrow-circle-o-down"
              eq_refl Hne eq_refl)
    as (doc & doc_before & doc_after & record
        & Hd & Hb & Ha & Hicons & Hname & _ & _ & Hregular & _).
  exists doc, record. split_and!; [exact Hd| |exact Hname|].
  - vm_compute in Hb, Ha. injection Hb as <-. injection Ha as <-.
    exact Hicons.
  - apply Hregular.
    + apply (proj1 (Forall_forall
                      (λ brand, PyStr.contains brand "arrow-circle-o-down"
                                = false) brand_indicators)).
      by_compute.
    + exists "-o". split; by_compute.
Defined.

(** C8: the keys of the document's [categories] mapping are exactly the
    categories of its records; an empty input gives an empty mapping. *)
Theorem categories_mapping_keys_are_used_categories (lines : list string) :
  ∃ doc,
    build_comprehensive_icon_list lines = Ok doc ∧
    dom (doc_categories doc) = list_to_set (category <$> doc_icons doc) ∧
    (∀ record, record ∈ doc_icons doc →
               is_Some (doc_categories doc !! category record)) ∧
    (∀ cat, is_Some (doc_categories doc !! cat) →
            ∃ record, record ∈ doc_icons doc ∧ category record = cat) ∧
    (lines = [] →
     doc_icons doc = [] ∧ doc_categories doc = ∅ ∧
     totalIcons (doc_metadata doc) = 0).
Proof.
  destruct (run_loop_emits (read_icon_names lines)) as [records Hrun].
  destruct (build_from_loop _ _ (Hrun (mkAccum [] ∅)))
    as (doc & Hdoc & Hicons & Hcats & Htotal).
  cbn [icons categories_used] in Hicons, Hcats, Htotal.
  rewrite app_nil_l in Hicons, Htotal.
  rewrite (left_id_L ∅ (∪)), <-Hicons in Hcats.
  assert (dom (doc_categories doc)
          = list_to_set (category <$> doc_icons doc)) as Hdom
    by (by rewrite Hcats, dom_category_mapping).
  exists doc. split_and!; [done|done|..].
  - intros record Hin. apply elem_of_dom. rewrite Hdom.
    apply elem_of_list_to_set, list_elem_of_fmap. by exists record.
  - intros cat Hcat%elem_of_dom. rewrite Hdom in Hcat.
    apply elem_of_list_to_set, list_elem_of_fmap in Hcat
      as (record & -> & Hin).
    by exists record.
  - intros ->. vm_compute in Hdoc. injection Hdoc as <-. done.
Qed.

(** C10: both records of an identifier ending in ["-o"] carry the category
    and the keywords computed on the whole identifier, suffix included; when
    no table holds the whole identifier and no brand entry occurs in it they
    are ["misc"], whatever the tables say about the base name. *)
Theorem outline_records_classified_on_suffixed_identifier
    (before after : list string) (line icon_name : string) :
  PyStr.strip line = icon_name →
  PyStr.endswith icon_name "-o" = true →
  ∃ doc doc_before doc_after regular solid,
    build_comprehensive_icon_list (before ++ line :: after) = Ok doc ∧
    build_comprehensive_icon_list before = Ok doc_before ∧
    build_comprehensive_icon_list after = Ok doc_after ∧
    doc_icons doc =
      doc_icons doc_before ++ [regular; solid] ++ doc_icons doc_after ∧
    category regular = (categorize_icon icon_name).1 ∧
    keywords regular = (categorize_icon icon_name).2 ∧
    category solid = (categorize_icon icon_name).1 ∧
    keywords solid = (categorize_icon icon_name).2 ∧
    (Forall (λ table, icon_name ∉ table.2) categories →
     brand_substring icon_name = false →
     category regular = "misc" ∧ category solid = "misc").
Proof.
  intros <- Hends.
  destruct (build_icons_at before line after)
    as (doc_before & doc_line & doc_after & doc & Hb & Hl & Ha & Hd & Hicons).
  destruct (build_line_outline line Hends) as (doc_line' & Hl' & Hrecords).
  rewrite Hl in Hl'. injection Hl' as <-. rewrite Hrecords in Hicons.
  eexists doc, doc_before, doc_after, _, _.
  split_and!; [exact Hd|exact Hb|exact Ha|exact Hicons|done..|].
  intros Hnone Hbrand. cbn [category].
  rewrite categorize_icon_category, Hbrand.
  by rewrite scan_categories_none.
Qed.

Lemma outline_records_classified_on_suffixed_identifier_witness :
  PyStr.strip "file-o" = "file-o" ∧
  PyStr.endswith "file-o" "-o" = true ∧
  (categorize_icon (PyStr.drop_last 2 "file-o")).1 = "files" ∧
  ∃ doc regular solid,
    build_comprehensive_icon_list ["file-o"] = Ok doc ∧
    doc_icons doc = [regular; solid] ∧
    category regular = "misc" ∧ category solid = "misc".
Proof.
  split; [reflexivity|]. split; [reflexivity|]. split; [by vm_compute|].
  destruct (outline_records_classified_on_suffixed_identifier
              [] [] "file-o" "file-o" eq_refl eq_refl)
    as (doc & doc_before & doc_after & regular & solid
        & Hd & Hb & Ha & Hicons & _ & _ & _ & _ & Hmisc).
  exists doc, regular, solid. split_and!; [exact Hd|..].
  - vm_compute in Hb, Ha. injection Hb as <-. injection Ha as <-.
    exact Hicons.
  - apply Hmisc; [by_compute|by vm_compute].
  - apply Hmisc; [by_compute|by vm_compute].
Defined.

(** ** The concrete scenarios of the specification *)

Example scenario_facebook_square :
  record_summaries (build_comprehensive_icon_list ["facebook-square"]) =
    [("facebook-square", "Facebook Square", "lab la-facebook-square",
      "brand", "brand")].
Proof. by vm_compute. Qed.

Example scenario_arrow_o :
  record_summaries (build_comprehensive_icon_list ["arrow-o"]) =
    [("arrow", "Arrow", "lar la-arrow", "regular", "misc");
     ("arrow", "Arrow", "las la-arrow", "solid", "misc")].
Proof. by vm_compute. Qed.

Example scenario_js :
  record_summaries (build_comprehensive_icon_list ["js"]) =
    [("js", "JavaScript", "las la-js", "solid", "brand")].
Proof. by vm_compute. Qed.

Example scenario_wifi :
  record_summaries (build_comprehensive_icon_list ["wifi"]) =
    [("wifi", "WiFi", "las la-wifi", "solid", "communication")] ∧
  Forall (λ k, k ∈ (categorize_icon "wifi").2)
         ["wifi"; "communication"; "contact"; "message"; "talk"].
Proof. split; [by vm_compute|by_compute]. Qed.

Example scenario_empty_input :
  build_comprehensive_icon_list [] =
    Ok (mkDocument
          (mkMetadata "1.3.0" 0
             "Line Awesome - Free icon font replacement for Font Awesome"
             "https://icons8.com/line-awesome" "MIT" "2025-09-16" []
             ["solid"; "regular"; "brand"])
          [] ∅).
Proof. by vm_compute. Qed.

(** ** The document as a function of the identifiers *)

Section document.
Import PyStr.

Lemma loop_body_emitted acc icon_name :
  loop_body acc icon_name =
    Ok (mkAccum (icons acc ++ emitted_records icon_name)
          (categories_used acc ∪
             list_to_set (category <$> emitted_records icon_name))).
Proof.
  destruct (loop_body_emits icon_name) as [records Hbody].
  unfold emitted_records. rewrite (Hbody (mkAccum [] ∅)).
  cbn [icons]. by rewrite app_nil_l, Hbody.
Qed.

Lemma run_loop_emitted acc icon_names :
  run_loop acc icon_names =
    Ok (mkAccum (icons acc ++ (icon_names ≫= emitted_records))
          (categories_used acc ∪
             list_to_set (category <$> (icon_names ≫= emitted_records)))).
Proof.
  revert acc. induction icon_names as [|icon_name rest IH]; intros acc.
  - destruct acc as [recs used].
    cbn [run_loop icons categories_used mbind list_bind fmap list_fmap
         list_to_set foldr].
    by rewrite app_nil_r, (right_id_L ∅ (∪)).
  - cbn [run_loop]. rewrite loop_body_emitted, bind_ok, IH.
    cbn [icons categories_used]. rewrite bind_cons, fmap_app.
    by rewrite list_to_set_app_L, !(assoc_L (++)), !(assoc_L (∪)).
Qed.

(** The whole document, written out. *)
Lemma build_document lines :
  build_comprehensive_icon_list lines =
    Ok (mkDocument
          (mkMetadata "1.3.0"
             (length (read_icon_names lines ≫= emitted_records))
             "Line Awesome - Free icon font replacement for Font Awesome"
             "https://icons8.com/line-awesome" "MIT" "2025-09-16"
             (elements (list_to_set
                (category <$> (read_icon_names lines ≫= emitted_records))
                : gset string))
             ["solid"; "regular"; "brand"])
          (read_icon_names lines ≫= emitted_records)
          (category_mapping (list_to_set
             (category <$> (read_icon_names lines ≫= emitted_records))))).
Proof.
  unfold build_comprehensive_icon_list.
  rewrite run_loop_emitted, bind_ok. cbn [icons categories_used].
  by rewrite app_nil_l, (left_id_L ∅ (∪)).
Qed.

Lemma emitted_records_empty : emitted_records EmptyString = [].
Proof. reflexivity. Qed.

Lemma emitted_records_outline icon_name :
  endswith icon_name "-o" = true →
  emitted_records icon_name =
    [mkIcon (drop_last 2 icon_name)
            (create_display_name (drop_last 2 icon_name))
            ("lar la-" +:+ drop_last 2 icon_name) "regular"
            (categorize_icon icon_name).1 (categorize_icon icon_name).2;
     mkIcon (drop_last 2 icon_name)
            (create_display_name (drop_last 2 icon_name))
            ("las la-" +:+ drop_last 2 icon_name) "solid"
            (categorize_icon icon_name).1 (categorize_icon icon_name).2].
Proof.
  intros Hends. unfold emitted_records.
  by rewrite loop_body_outline.
Qed.

Lemma emitted_records_single icon_name :
  icon_name ≠ EmptyString →
  endswith icon_name "-o" = false →
  ∃ css,
    get_css_class icon_name (determine_icon_type icon_name) = Ok css ∧
    emitted_records icon_name =
      [mkIcon icon_name (create_display_name icon_name) css
              (determine_icon_type icon_name)
              (categorize_icon icon_name).1 (categorize_icon icon_name).2].
Proof.
  intros Hne Hends. unfold emitted_records.
  destruct (loop_body_single (mkAccum [] ∅) icon_name Hne Hends)
    as (css & Hcss & ->).
  by exists css.
Qed.

(** A property of the records of every identifier is a property of every
    record of the document. *)
Lemma document_records (P : IconRecord → Prop) lines :
  (∀ icon_name, Forall P (emitted_records icon_name)) →
  ∃ doc, build_comprehensive_icon_list lines = Ok doc ∧
         Forall P (doc_icons doc).
Proof.
  intros HP. eexists. split; [apply build_document|].
  cbn [doc_icons]. apply Forall_bind, Forall_forall. auto.
Qed.

End document.
(** ** Properties of every document *)

Section document_invariants.
Import PyStr.

Lemma read_icon_names_nonempty lines :
  Forall (λ icon_name, icon_name ≠ EmptyString) (read_icon_names lines).
Proof.
  apply Forall_forall. intros icon_name.
  unfold read_icon_names. rewrite list_elem_of_omap.
  intros (line & _ & Hline). by case_bool_decide; simplify_eq.
Qed.

Lemma length_emitted_records icon_name :
  icon_name ≠ EmptyString →
  length (emitted_records icon_name) =
    if endswith icon_name "-o" then 2 else 1.
Proof.
  intros Hne. destruct (endswith icon_name "-o") eqn:Hends.
  - by rewrite emitted_records_outline.
  - by destruct (emitted_records_single icon_name Hne Hends) as (? & _ & ->).
Qed.

Lemma determine_icon_type_range icon_name :
  determine_icon_type icon_name ∈ ["solid"; "regular"; "brand"].
Proof.
  unfold determine_icon_type.
  destruct (any _ brand_indicators); [by_compute|].
  destruct (any _ regular_indicators); by_compute.
Qed.

Lemma scan_categories_range tables icon_name category :
  scan_categories tables icon_name category ∈ category :: tables.*1.
Proof.
  induction tables as [|[cat_name icons] tables IH]; simpl.
  - by left.
  - destruct (in_list icon_name icons); [right; by left|].
    apply elem_of_cons in IH as [->|IH]; [by left|by do 2 right].
Qed.

Lemma categorize_icon_range icon_name :
  (categorize_icon icon_name).1 ∈ "misc" :: categories.*1.
Proof.
  rewrite categorize_icon_category.
  destruct (brand_substring icon_name).
  - pose proof (scan_categories_range categories icon_name "brand") as Hin.
    apply elem_of_cons in Hin as [->|Hin]; [by_compute|by right].
  - apply scan_categories_range.
Qed.

(** Every record of an identifier takes its category and keywords from the
    classifier, run on that identifier. *)
Lemma emitted_records_classified icon_name :
  Forall (λ record, category record = (categorize_icon icon_name).1 ∧
                    keywords record = (categorize_icon icon_name).2)
         (emitted_records icon_name).
Proof.
  destruct (decide (icon_name = EmptyString)) as [->|Hne].
  { rewrite emitted_records_empty. constructor. }
  destruct (endswith icon_name "-o") eqn:Hends.
  - rewrite emitted_records_outline by done. by repeat constructor.
  - destruct (emitted_records_single icon_name Hne Hends) as (? & _ & ->).
    by repeat constructor.
Qed.

Lemma emitted_records_formatted icon_name :
  Forall (λ record,
            iconType record ∈ ["solid"; "regular"; "brand"] ∧
            get_css_class (name record) (iconType record)
              = Ok (cssClass record) ∧
            displayName record = create_display_name (name record))
         (emitted_records icon_name).
Proof.
  destruct (decide (icon_name = EmptyString)) as [->|Hne].
  { rewrite emitted_records_empty. constructor. }
  destruct (endswith icon_name "-o") eqn:Hends.
  - rewrite emitted_records_outline by done.
    repeat constructor; cbn [iconType name cssClass displayName];
      try by_compute; by apply get_css_class_known.
  - destruct (emitted_records_single icon_name Hne Hends) as (css & Hcss & ->).
    constructor; [|constructor].
    cbn [iconType name cssClass displayName].
    split_and!; [apply determine_icon_type_range|done|done].
Qed.

End document_invariants.

(** X1: the script never raises; [totalIcons] is the number of records,
    which is the number of non-blank lines plus the number of those whose
    identifier ends in ["-o"]. *)
Theorem document_always_built_and_counted (lines : list string) :
  ∃ doc,
    build_comprehensive_icon_list lines = Ok doc ∧
    totalIcons (doc_metadata doc) = length (doc_icons doc) ∧
    length (doc_icons doc) =
      length (read_icon_names lines) +
      length (filter (λ icon_name, PyStr.endswith icon_name "-o" = true)
                     (read_icon_names lines)).
Proof.
  eexists. split; [apply build_document|].
  cbn [doc_metadata totalIcons doc_icons]. split; [done|].
  pose proof (read_icon_names_nonempty lines) as Hnames.
  induction Hnames as [|icon_name rest Hne _ IH]; [done|].
  rewrite bind_cons, length_app, IH, length_emitted_records by done.
  rewrite filter_cons.
  destruct (PyStr.endswith icon_name "-o") eqn:Hends.
  - rewrite decide_True by done. simpl. lia.
  - rewrite decide_False by done. simpl. lia.
Qed.

(** X2: in every record of the document the type is one of the three the
    metadata lists, the class is what [get_css_class] gives for the record's
    name and type (also for the two records of an outline identifier, whose
    classes the script spells out), and the display name is that of the
    record's name. *)
Theorem document_records_are_formatted (lines : list string) :
  ∃ doc,
    build_comprehensive_icon_list lines = Ok doc ∧
    ∀ record, record ∈ doc_icons doc →
      iconType record ∈ iconTypes (doc_metadata doc) ∧
      get_css_class (name record) (iconType record) = Ok (cssClass record) ∧
      displayName record = create_display_name (name record).
Proof.
  destruct (document_records _ lines emitted_records_formatted)
    as (doc & Hdoc & Hall).
  exists doc. split; [done|]. intros record Hin.
  rewrite Forall_forall in Hall. destruct (Hall record Hin) as (Hty & Hrest).
  split; [|done].
  rewrite build_document in Hdoc. injection Hdoc as <-. exact Hty.
Qed.

(** X3: in every record of the document the keyword list has no duplicates
    and every keyword has at least two characters. *)
Theorem document_keywords_are_clean (lines : list string) :
  ∃ doc,
    build_comprehensive_icon_list lines = Ok doc ∧
    ∀ record, record ∈ doc_icons doc →
      NoDup (keywords record) ∧
      ∀ k, k ∈ keywords record → 1 < String.length k.
Proof.
  destruct (document_records
              (λ record, NoDup (keywords record) ∧
                         ∀ k, k ∈ keywords record → 1 < String.length k)
              lines) as (doc & Hdoc & Hall).
  { intros icon_name.
    eapply Forall_impl; [apply emitted_records_classified|].
    intros record [_ ->]. rewrite categorize_icon_keywords. split.
    - apply NoDup_filter, NoDup_elements.
    - by intros k [[_ Hlen] _]%list_elem_of_filter. }
  exists doc. split; [done|]. by apply Forall_forall.
Qed.
Section category_mapping_facts.

Lemma lookup_foldl_insert (describe : string → string) (cats : list string)
    (d : gmap string string) (cat : string) :
  foldl (λ d cat, <[cat := describe cat]> d) d cats !! cat =
    if decide (cat ∈ cats) then Some (describe cat) else d !! cat.
Proof.
  revert d. induction cats as [|c cats IH]; intros d.
  - cbn [foldl]. by rewrite decide_False by apply not_elem_of_nil.
  - cbn [foldl]. rewrite IH.
    destruct (decide (cat ∈ cats)) as [Hin|Hout].
    + by rewrite decide_True by (by right).
    + destruct (decide (cat = c)) as [->|Hne].
      * rewrite decide_True by (by left). apply lookup_insert_eq.
      * rewrite decide_False by (by intros [?|?]%elem_of_cons).
        by apply lookup_insert_ne.
Qed.

Lemma elem_of_sorted (used : gset string) (cat : string) :
  cat ∈ sorted used ↔ cat ∈ used.
Proof.
  unfold sorted. by rewrite merge_sort_Permutation, elem_of_elements.
Qed.

(** The mapping sends each category used to its description, and holds
    nothing else. *)
Lemma lookup_category_mapping (used : gset string) (cat : string) :
  category_mapping used !! cat =
    if decide (cat ∈ used) then Some (describe_category cat) else None.
Proof.
  unfold category_mapping. rewrite lookup_foldl_insert, lookup_empty.
  destruct (decide (cat ∈ used)) as [Hin|Hout].
  - by rewrite decide_True by (by apply elem_of_sorted).
  - by rewrite decide_False by (by rewrite elem_of_sorted).
Qed.

(** Every category the classifier can return has a registered
    description. *)
Lemma classifier_categories_described cat :
  cat ∈ "misc" :: categories.*1 →
  category_descriptions !! cat = Some (describe_category cat).
Proof.
  revert cat. apply Forall_forall. by_compute.
Qed.

End category_mapping_facts.

(** X4: every record's category is ["misc"] or the name of one of the
    twelve membership tables, and every entry of the document's [categories]
    mapping is the description registered for its key: the title-cased
    fallback is never used. *)
Theorem document_categories_are_registered (lines : list string) :
  ∃ doc,
    build_comprehensive_icon_list lines = Ok doc ∧
    (∀ record, record ∈ doc_icons doc →
       category record ∈
         ["misc"; "brand"; "accessibility"; "arrows"; "medical";
          "communication"; "files"; "interface"; "text"; "emotions";
          "transportation"; "food"; "science"]) ∧
    (∀ cat text, doc_categories doc !! cat = Some text →
                 category_descriptions !! cat = Some text).
Proof.
  assert (∀ icon_name,
            Forall (λ record, category record ∈ "misc" :: categories.*1)
                   (emitted_records icon_name)) as Hrange.
  { intros icon_name.
    eapply Forall_impl; [apply emitted_records_classified|].
    intros record [-> _]. apply categorize_icon_range. }
  eexists. split; [apply build_document|].
  cbn [doc_icons doc_categories]. split.
  - apply Forall_forall, Forall_bind, Forall_forall. auto.
  - intros cat text. rewrite lookup_category_mapping.
    case_decide as Hused; [|done]. intros [= <-].
    apply classifier_categories_described.
    apply elem_of_list_to_set, list_elem_of_fmap in Hused
      as (record & -> & [icon_name [Hin _]]%list_elem_of_bind).
    pose proof (Hrange icon_name) as Hall.
    rewrite Forall_forall in Hall. by apply Hall.
Qed.

(** X5: the metadata's category list has no duplicates, and its members
    are exactly the keys of the [categories] mapping. *)
Theorem metadata_categories_are_mapping_keys (lines : list string) :
  ∃ doc,
    build_comprehensive_icon_list lines = Ok doc ∧
    NoDup (categories_list (doc_metadata doc)) ∧
    ∀ cat, cat ∈ categories_list (doc_metadata doc) ↔
           is_Some (doc_categories doc !! cat).
Proof.
  eexists. split; [apply build_document|].
  cbn [doc_metadata categories_list doc_categories]. split.
  - apply NoDup_elements.
  - intros cat. rewrite elem_of_elements, lookup_category_mapping.
    case_decide; split; done.
Qed.

(** X6: the document of two inputs put end to end has the records of the
    first followed by those of the second, the sum of the totals, and the
    union of the two [categories] mappings. *)
Theorem document_of_concatenated_input (lines1 lines2 : list string) :
  ∃ doc1 doc2 doc,
    build_comprehensive_icon_list lines1 = Ok doc1 ∧
    build_comprehensive_icon_list lines2 = Ok doc2 ∧
    build_comprehensive_icon_list (lines1 ++ lines2) = Ok doc ∧
    doc_icons doc = doc_icons doc1 ++ doc_icons doc2 ∧
    totalIcons (doc_metadata doc) =
      totalIcons (doc_metadata doc1) + totalIcons (doc_metadata doc2) ∧
    doc_categories doc = doc_categories doc1 ∪ doc_categories doc2.
Proof.
  eexists _, _, _. split_and!; [apply build_document..| | |];
    cbn [doc_icons doc_metadata totalIcons doc_categories];
    rewrite read_icon_names_app, bind_app.
  - done.
  - apply length_app.
  - apply map_eq. intros cat.
    rewrite lookup_union, !lookup_category_mapping.
    rewrite fmap_app, list_to_set_app_L.
    repeat case_decide; try done; exfalso;
      rewrite elem_of_union in *; tauto.
Qed.


(** ** Surrounding white space and blank lines *)

Section stripping.
Import PyStr.

Lemma lstrip_head s c t : lstrip s = String c t → isspace c = false.
Proof.
  induction s as [|a s IH]; simpl; [done|].
  destruct (isspace a) eqn:Ha; [done|]. by intros [= <- _].
Qed.

Lemma rstrip_cons_nonspace c t :
  isspace c = false → rstrip (String c t) = String c (rstrip t).
Proof. intros Hc. simpl. rewrite Hc. by destruct (rstrip t). Qed.

Lemma rstrip_idemp s : rstrip (rstrip s) = rstrip s.
Proof.
  induction s as [|a s IH]; [done|]. simpl.
  destruct (rstrip s) as [|d r] eqn:Hr.
  - destruct (isspace a) eqn:Ha; [done|]. simpl. by rewrite Ha.
  - change (rstrip (String a (String d r)))
      with (match rstrip (String d r) with
            | EmptyString =>
                if isspace a then EmptyString else String a EmptyString
            | r' => String a r'
            end).
    by rewrite IH.
Qed.

Lemma rstrip_last s pre c :
  rstrip s = pre +:+ String c EmptyString → isspace c = false.
Proof.
  revert pre. induction s as [|a s IH]; intros pre; simpl.
  - by destruct pre.
  - destruct (rstrip s) as [|d r] eqn:Hr.
    + destruct (isspace a) eqn:Ha; [by destruct pre|].
      destruct pre as [|p pre]; [by intros [= <-]|].
      rewrite app_cons. intros [= _ Hpre]. by destruct pre.
    + destruct pre as [|p pre]; [done|].
      rewrite app_cons. intros [= _ Hpre]. by apply (IH pre).
Qed.

Lemma strip_idemp s : strip (strip s) = strip s.
Proof.
  unfold strip. destruct (lstrip s) as [|c t] eqn:Hs; [done|].
  pose proof (lstrip_head _ _ _ Hs) as Hc.
  rewrite rstrip_cons_nonspace by done.
  simpl lstrip. rewrite Hc.
  rewrite <-(rstrip_cons_nonspace c t) by done. apply rstrip_idemp.
Qed.

Lemma read_icon_names_strip lines :
  read_icon_names (strip <$> lines) = read_icon_names lines.
Proof.
  unfold read_icon_names. induction lines as [|line lines IH]; [done|].
  cbn [fmap list_fmap omap list_omap]. fold (strip <$> lines).
  by rewrite strip_idemp, IH.
Qed.

End stripping.

(** X8: every identifier the main loop sees is non-empty and has no white
    space at either end, so its guard against an empty identifier never
    fires. *)
Theorem identifiers_are_stripped_and_non_empty (lines : list string) :
  ∀ icon_name, icon_name ∈ read_icon_names lines →
    icon_name ≠ EmptyString ∧
    PyStr.strip icon_name = icon_name ∧
    (∀ c rest, icon_name = String c rest → PyStr.isspace c = false) ∧
    (∀ front c, icon_name = front +:+ String c EmptyString →
                PyStr.isspace c = false).
Proof.
  intros icon_name. unfold read_icon_names. rewrite list_elem_of_omap.
  intros (line & _ & Hline). case_bool_decide as Hne; [done|].
  injection Hline as <-. split_and!; [done|apply strip_idemp|..].
  - intros c rest Hfirst. unfold PyStr.strip in Hfirst.
    destruct (PyStr.lstrip line) as [|a t] eqn:Hl; [done|].
    pose proof (lstrip_head _ _ _ Hl) as Ha.
    rewrite rstrip_cons_nonspace in Hfirst by done.
    by injection Hfirst as <- _.
  - intros front c Hlast. by apply (rstrip_last _ _ _ Hlast).
Qed.

Lemma identifiers_are_stripped_and_non_empty_witness :
  "home" ∈ read_icon_names ["  home  "; "   "] ∧
  "home" ≠ EmptyString ∧ PyStr.strip "home" = "home".
Proof.
  assert ("home" ∈ read_icon_names ["  home  "; "   "]) as Hin by by_compute.
  destruct (identifiers_are_stripped_and_non_empty
              ["  home  "; "   "] "home" Hin) as (Hne & Hstrip & _).
  split_and!; [exact Hin|exact Hne|exact Hstrip].
Defined.

(** X9: white space around the identifiers of the input does not change
    the document. *)
Theorem surrounding_white_space_is_ignored (lines : list string) :
  build_comprehensive_icon_list (PyStr.strip <$> lines)
  = build_comprehensive_icon_list lines.
Proof.
  unfold build_comprehensive_icon_list. by rewrite read_icon_names_strip.
Qed.

(** X10: a line of white space only does not change the document. *)
Theorem blank_line_is_ignored (before after : list string) (line : string) :
  PyStr.strip line = EmptyString →
  build_comprehensive_icon_list (before ++ line :: after)
  = build_comprehensive_icon_list (before ++ after).
Proof.
  intros Hblank. unfold build_comprehensive_icon_list.
  change (line :: after) with ([line] ++ after).
  rewrite !read_icon_names_app. unfold read_icon_names at 2.
  cbn [omap list_omap]. rewrite bool_decide_eq_true_2 by done.
  by rewrite app_nil_l.
Qed.

Lemma blank_line_is_ignored_witness :
  build_comprehensive_icon_list (["home"] ++ "   " :: ["js"])
  = build_comprehensive_icon_list (["home"] ++ ["js"]).
Proof. exact (blank_line_is_ignored ["home"] ["js"] "   " eq_refl). Defined.

(** ** The class string identifies the icon *)

(** X11: two calls of [get_css_class] that return the same class string
    were given the same name and the same type. *)
Theorem css_class_identifies_name_and_type
    (icon_name1 icon_type1 icon_name2 icon_type2 css : string) :
  get_css_class icon_name1 icon_type1 = Ok css →
  get_css_class icon_name2 icon_type2 = Ok css →
  icon_name1 = icon_name2 ∧ icon_type1 = icon_type2.
Proof.
  unfold get_css_class, subscript. rewrite !prefix_map_lookup.
  repeat case_decide; subst; cbn [mbind result_bind];
    intros [= <-]; rewrite ?app_cons, ?app_empty_l;
    intros [= ?]; by subst.
Qed.

Lemma css_class_identifies_name_and_type_witness :
  "home" = "home" ∧ "brand" = "brand".
Proof.
  exact (css_class_identifies_name_and_type
           "home" "brand" "home" "brand" "lab la-home" eq_refl eq_refl).
Defined.
(** ** The display name holds no hyphen *)

Section hyphen_free.
Import PyStr.

Lemma all_chars_app p s t :
  all_chars p (s +:+ t) = all_chars p s && all_chars p t.
Proof.
  induction s as [|c s IH]; [done|].
  rewrite app_cons. simpl. by rewrite IH, andb_assoc.
Qed.

Lemma fields_without_separator is_sep s :
  Forall (λ w, all_chars (λ c, negb (is_sep c)) w = true) (fields is_sep s).
Proof.
  induction s as [|c s IH]; simpl.
  - by repeat constructor.
  - destruct (is_sep c) eqn:Hc; [by constructor|].
    pose proof (fields_nonempty is_sep s) as Hne.
    destruct (fields is_sep s) as [|w ws]; [done|].
    apply Forall_cons in IH as [Hw Hws]. constructor; [|done].
    simpl. by rewrite Hc, Hw.
Qed.

Lemma upper_not_hyphen c :
  Ascii.eqb c "-" = false → Ascii.eqb (upper c) "-" = false.
Proof. by destruct c as [[] [] [] [] [] [] [] []]. Qed.

Lemma lower_not_hyphen c :
  Ascii.eqb c "-" = false → Ascii.eqb (lower c) "-" = false.
Proof. by destruct c as [[] [] [] [] [] [] [] []]. Qed.

Lemma capitalize_without_hyphen w :
  all_chars (λ c, negb (Ascii.eqb c "-")) w = true →
  all_chars (λ c, negb (Ascii.eqb c "-")) (capitalize w) = true.
Proof.
  destruct w as [|c w]; [done|]. simpl.
  intros [Hc Hw]%andb_true_iff. apply negb_true_iff in Hc.
  rewrite (upper_not_hyphen c Hc). simpl.
  induction w as [|d w IH]; [done|]. simpl in *.
  apply andb_true_iff in Hw as [Hd Hw]. apply negb_true_iff in Hd.
  by rewrite (lower_not_hyphen d Hd), IH.
Qed.

Lemma format_word_without_hyphen w :
  all_chars (λ c, negb (Ascii.eqb c "-")) w = true →
  all_chars (λ c, negb (Ascii.eqb c "-")) (format_word w) = true.
Proof.
  intros Hw. unfold format_word.
  destruct (special_cases !! w) as [replacement|] eqn:Hlook.
  - unfold special_cases in Hlook.
    refine (list_to_map_lookup_Forall
              (λ item, all_chars (λ c, negb (Ascii.eqb c "-")) item.2 = true)
              _ w replacement _ Hlook).
    by_compute.
  - by apply capitalize_without_hyphen.
Qed.

Lemma join_without_hyphen ws :
  Forall (λ w, all_chars (λ c, negb (Ascii.eqb c "-")) w = true) ws →
  all_chars (λ c, negb (Ascii.eqb c "-")) (join " " ws) = true.
Proof.
  induction 1 as [|w ws Hw Hws IH]; [done|].
  destruct ws as [|w' ws]; [done|].
  change (join " " (w :: w' :: ws)) with (w +:+ " " +:+ join " " (w' :: ws)).
  rewrite !all_chars_app, Hw, IH. done.
Qed.

End hyphen_free.

(** X12: whatever the identifier, its display name contains no hyphen. *)
Theorem display_name_has_no_hyphen (icon_name : string) :
  PyStr.all_chars (λ c, negb (Ascii.eqb c "-"))
                  (create_display_name icon_name) = true.
Proof.
  rewrite create_display_name_spec. unfold display_name_spec.
  apply join_without_hyphen, Forall_fmap, Forall_forall.
  intros w [_ Hw]%list_elem_of_filter.
  apply format_word_without_hyphen.
  pose proof (fields_without_separator (λ c, Ascii.eqb c "-") icon_name)
    as Hall.
  rewrite Forall_forall in Hall. by apply Hall.
Qed.

(** ** Reading a category back *)

Section category_inversion.
Import PyStr.

(** The scan either finds no table and keeps the category it was given, or
    returns the name of a table that holds the identifier. *)
Lemma scan_categories_cases tables icon_name category :
  (Forall (λ table, icon_name ∉ table.2) tables ∧
   scan_categories tables icon_name category = category) ∨
  (∃ icons, (scan_categories tables icon_name category, icons) ∈ tables ∧
            icon_name ∈ icons).
Proof.
  induction tables as [|[cat_name icons] tables IH]; simpl.
  - left. by split.
  - unfold in_list. case_bool_decide as Hin.
    + right. exists icons. split; [by left|done].
    + destruct IH as [[Hnone ->]|(icons' & Htable & Hin')].
      * left. split; [by constructor|done].
      * right. exists icons'. split; [by right|done].
Qed.

Lemma contains_self s : contains s s = true.
Proof. apply contains_spec. exists EmptyString, EmptyString.
  by rewrite app_empty_l, app_empty_r. Qed.

Lemma brand_icons_brand_substring icon_name :
  icon_name ∈ brand_icons → brand_substring icon_name = true.
Proof.
  intros Hin. unfold brand_substring, any. apply existsb_exists.
  exists icon_name. split; [by apply list_elem_of_In|apply contains_self].
Qed.

Lemma table_names name icons :
  (name, icons) ∈ categories → name ∈ categories.*1.
Proof. intros Hin. by apply (list_elem_of_fmap_2 fst) in Hin. Qed.

End category_inversion.

(** X13: the category is ["misc"] exactly when no table holds the
    identifier and no brand entry occurs in it. *)
Theorem misc_category_iff_unclassified (icon_name : string) :
  (categorize_icon icon_name).1 = "misc" ↔
  Forall (λ table, icon_name ∉ table.2) categories ∧
  brand_substring icon_name = false.
Proof.
  rewrite categorize_icon_category. split.
  - destruct (scan_categories_cases categories icon_name
                (if brand_substring icon_name then "brand" else "misc"))
      as [[Hnone ->]|(icons & Htable & _)].
    + by destruct (brand_substring icon_name).
    + intros Hmisc. rewrite Hmisc in Htable.
      apply table_names in Htable. exfalso. revert Htable. by_compute.
  - intros [Hnone ->]. by apply scan_categories_none.
Qed.

(** X14: every identifier of the brand table is categorised ["brand"], and
    every identifier categorised ["brand"] has a brand entry inside and gets
    the four brand seed keywords. *)
Theorem brand_category_carries_seed_keywords (icon_name : string) :
  (icon_name ∈ brand_icons → (categorize_icon icon_name).1 = "brand") ∧
  ((categorize_icon icon_name).1 = "brand" →
   brand_substring icon_name = true ∧
   ∀ seed, seed ∈ brand_seed_keywords →
           seed ∈ (categorize_icon icon_name).2).
Proof.
  split.
  - intros Hin. rewrite categorize_icon_category.
    by apply (scan_categories_first [] "brand" brand_icons).
  - intros Hbrand.
    assert (brand_substring icon_name = true) as Hsub.
    { rewrite categorize_icon_category in Hbrand.
      destruct (scan_categories_cases categories icon_name
                  (if brand_substring icon_name then "brand" else "misc"))
        as [[_ Hdefault]|(icons & Htable & Hin)].
      - rewrite Hdefault in Hbrand. by destruct (brand_substring icon_name).
      - rewrite Hbrand in Htable.
        apply categories_brand_table in Htable as ->.
        by apply brand_icons_brand_substring. }
    split; [done|]. intros seed Hseed.
    rewrite categorize_icon_keywords, Hsub.
    apply list_elem_of_filter. split.
    + revert seed Hseed. apply Forall_forall. by_compute.
    + apply elem_of_elements, elem_of_list_to_set.
      rewrite !elem_of_app. by left; left.
Qed.
